(** * Deutsch-Meister: content service and exercise orchestrator

    A shallow embedding of [services/geminiService.ts], [types.ts] and the
    [App] component, and the properties of the content-generation and
    exercise-state pipeline.

    Conventions.
    - A JavaScript string is a [string]: the UTF-8 bytes of its text.  [===]
      on two strings is equality of these.
    - An [async] function that may throw is a computation in the [outcome]
      monad; [await] is its bind, a [try] block with its handler is [try_catch].
    - The hosted model is the environment: [generateContent] is a variable of
      the service section, and every statement is for all its behaviours.
    - A React event handler is a function from the component state before
      the event to the state after all its [setX] calls are applied. *)

From Stdlib Require Import Ascii String.
From stdpp Require Import base option list strings pretty gmap.

#[local] Set Warnings "-register-all".

(** ** Strings of the platform *)

(** The double quote character, code 34. *)
Definition dquote : ascii := ascii_of_nat 34.
Definition backslash : ascii := ascii_of_nat 92.

(** [Array.prototype.join] on strings. *)
Fixpoint join (sep : string) (parts : list string) : string :=
  match parts with
  | [] => ""
  | [p] => p
  | p :: rest => p +:+ sep +:+ join sep rest
  end.

(** [s.startsWith(p)]. *)
Fixpoint startsWith (p s : string) : bool :=
  match p, s with
  | EmptyString, _ => true
  | String a p', String b s' => if Ascii.eqb a b then startsWith p' s' else false
  | String _ _, EmptyString => false
  end.

(** Number of positions of [s] at which [marker] occurs. *)
Fixpoint countOf (marker s : string) : nat :=
  match s with
  | EmptyString => 0
  | String _ s' => (if startsWith marker s then 1 else 0) + countOf marker s'
  end.

(** [s.split(sep)] for a separator that is not empty: the pieces of [s]
    between the occurrences of [sep], found from left to right, an
    occurrence starting only after the end of the one before.  [skip] is the
    number of characters of a found occurrence still to pass. *)
Fixpoint split_go (sep : string) (skip : nat) (s : string) : list string :=
  match s with
  | EmptyString => [EmptyString]
  | String c s' =>
      match skip with
      | S k => split_go sep k s'
      | O =>
          if startsWith sep s then EmptyString :: split_go sep (String.length sep - 1) s'
          else
            match split_go sep 0 s' with
            | p :: ps => String c p :: ps
            | [] => [String c EmptyString]
            end
      end
  end.

Definition split (sep s : string) : list string := split_go sep 0 s.

(** The replacement of every double quote of [s] by a backslash and a double
    quote, the [replace] with a global pattern of [generateQuiz]. *)
Fixpoint escapeQuotes (s : string) : string :=
  match s with
  | EmptyString => EmptyString
  | String c s' =>
      if Ascii.eqb c dquote then String backslash (String dquote (escapeQuotes s'))
      else String c (escapeQuotes s')
  end.

(** White space of [String.prototype.trim] in the ASCII range. *)
Definition isSpace (c : ascii) : bool :=
  match nat_of_ascii c with
  | 9 | 10 | 11 | 12 | 13 | 32 => true
  | _ => false
  end.

Fixpoint trimStart (s : string) : string :=
  match s with
  | String c s' => if isSpace c then trimStart s' else s
  | EmptyString => EmptyString
  end.

Fixpoint trimEnd (s : string) : string :=
  match s with
  | EmptyString => EmptyString
  | String c s' =>
      match trimEnd s' with
      | EmptyString => if isSpace c then EmptyString else String c EmptyString
      | t => String c t
      end
  end.

Definition trim (s : string) : string := trimEnd (trimStart s).

(** The removal of a double quote at the start and of one at the end, the
    [replace] of [generateRandomTheme]. *)
Fixpoint stripTrailingQuote (s : string) : string :=
  match s with
  | EmptyString => EmptyString
  | String c EmptyString => if Ascii.eqb c dquote then EmptyString else s
  | String c s' => String c (stripTrailingQuote s')
  end.

Definition stripQuotes (s : string) : string :=
  match s with
  | String c s' =>
      if Ascii.eqb c dquote then stripTrailingQuote s' else stripTrailingQuote s
  | EmptyString => EmptyString
  end.

(** ** JSON values and [JSON.parse] *)

Module JSON.

#[local] Open Scope char_scope.

(** A number keeps its literal: no property below reads a numeric value. *)
Inductive value : Type :=
| Null
| Bool (b : bool)
| Num (literal : string)
| Str (s : string)
| Arr (items : list value)
| Obj (members : list (string * value)).

(** Property access [v.k]: [None] is [undefined].  A repeated key keeps its
    last binding, as [JSON.parse] does. *)
Fixpoint lookup_member (k : string) (members : list (string * value)) : option value :=
  match members with
  | [] => None
  | (k', v) :: rest =>
      match lookup_member k rest with
      | Some v' => Some v'
      | None => if String.eqb k k' then Some v else None
      end
  end.

Definition get (k : string) (v : value) : option value :=
  match v with
  | Obj members => lookup_member k members
  | _ => None
  end.

(** *** Lexical level *)

Definition isWs (c : ascii) : bool :=
  match nat_of_ascii c with
  | 9 | 10 | 13 | 32 => true
  | _ => false
  end.

Fixpoint skip_ws (s : string) : string :=
  match s with
  | String c s' => if isWs c then skip_ws s' else s
  | EmptyString => EmptyString
  end.

Definition isDigit (c : ascii) : bool :=
  let n := nat_of_ascii c in (48 <=? n)%nat && (n <=? 57)%nat.

Definition hexval (c : ascii) : option N :=
  let n := N_of_ascii c in
  if (48 <=? n)%N && (n <=? 57)%N then Some (n - 48)%N
  else if (65 <=? n)%N && (n <=? 70)%N then Some (n - 55)%N
  else if (97 <=? n)%N && (n <=? 102)%N then Some (n - 87)%N
  else None.

(** A piece of a string literal: a byte of the text, or the UTF-16 code
    unit of a [\uXXXX] escape. *)
Inductive piece : Type :=
| Byte (c : ascii)
| Unit16 (u : N).

Definition byte_of (n : N) : ascii := ascii_of_N n.

Definition utf8 (cp : N) : string :=
  if (cp <? 128)%N then String (byte_of cp) EmptyString
  else if (cp <? 2048)%N then
    String (byte_of (192 + cp / 64)) (String (byte_of (128 + cp mod 64)) EmptyString)
  else if (cp <? 65536)%N then
    String (byte_of (224 + cp / 4096))
      (String (byte_of (128 + (cp / 64) mod 64))
         (String (byte_of (128 + cp mod 64)) EmptyString))
  else
    String (byte_of (240 + cp / 262144))
      (String (byte_of (128 + (cp / 4096) mod 64))
         (String (byte_of (128 + (cp / 64) mod 64))
            (String (byte_of (128 + cp mod 64)) EmptyString))).

Definition isHigh (u : N) : bool := (55296 <=? u)%N && (u <=? 56319)%N.
Definition isLow (u : N) : bool := (56320 <=? u)%N && (u <=? 57343)%N.

Fixpoint assemble (ps : list piece) : string :=
  match ps with
  | [] => EmptyString
  | Byte c :: rest => String c (assemble rest)
  | Unit16 hi :: rest =>
      match rest with
      | Unit16 lo :: rest' =>
          if isHigh hi && isLow lo
          then utf8 (65536 + (hi - 55296) * 1024 + (lo - 56320)) +:+ assemble rest'
          else utf8 hi +:+ assemble rest
      | _ => utf8 hi +:+ assemble rest
      end
  end.

(** The text after an opening quote, up to the closing one. *)
Fixpoint scan_string (s : string) (acc : list piece) : option (string * string) :=
  match s with
  | EmptyString => None
  | String c s' =>
      if Ascii.eqb c dquote then Some (assemble (rev acc), s')
      else if Ascii.eqb c backslash then
        match s' with
        | String e s'' =>
            if Ascii.eqb e dquote then scan_string s'' (Byte dquote :: acc)
            else if Ascii.eqb e backslash then scan_string s'' (Byte backslash :: acc)
            else match e with
            | "/" => scan_string s'' (Byte "/" :: acc)
            | "b" => scan_string s'' (Byte (ascii_of_nat 8) :: acc)
            | "f" => scan_string s'' (Byte (ascii_of_nat 12) :: acc)
            | "n" => scan_string s'' (Byte (ascii_of_nat 10) :: acc)
            | "r" => scan_string s'' (Byte (ascii_of_nat 13) :: acc)
            | "t" => scan_string s'' (Byte (ascii_of_nat 9) :: acc)
            | "u" =>
                match s'' with
                | String h1 (String h2 (String h3 (String h4 s4))) =>
                    match hexval h1, hexval h2, hexval h3, hexval h4 with
                    | Some a, Some b, Some c', Some d =>
                        scan_string s4 (Unit16 (a * 4096 + b * 256 + c' * 16 + d)%N :: acc)
                    | _, _, _, _ => None
                    end
                | _ => None
                end
            | _ => None
            end
        | EmptyString => None
        end
      else if (nat_of_ascii c <? 32)%nat then None
      else scan_string s' (Byte c :: acc)
  end.

Fixpoint scan_digits (s : string) : string * string :=
  match s with
  | String c s' =>
      if isDigit c then let '(ds, r) := scan_digits s' in (String c ds, r)
      else (EmptyString, s)
  | EmptyString => (EmptyString, EmptyString)
  end.

(** [int frac? exp?] after an optional minus sign. *)
Definition scan_number (s : string) : option (string * string) :=
  let '(sign, s0) :=
    match s with
    | String "-" r => ("-"%string, r)
    | _ => (EmptyString, s)
    end in
  let '(int, s1) := scan_digits s0 in
  match int with
  | EmptyString => None
  | String "0" (String _ _) => None
  | _ =>
      let frac :=
        match s1 with
        | String "." r =>
            let '(ds, r') := scan_digits r in
            match ds with
            | EmptyString => None
            | _ => Some (String "." ds, r')
            end
        | _ => Some (EmptyString, s1)
        end in
      match frac with
      | None => None
      | Some (fr, s2) =>
          let mant := (sign +:+ int +:+ fr)%string in
          match s2 with
          | String e r =>
              if Ascii.eqb e "e" || Ascii.eqb e "E" then
                let '(sg, r0) :=
                  match r with
                  | String "+" r' => ("+"%string, r')
                  | String "-" r' => ("-"%string, r')
                  | _ => (EmptyString, r)
                  end in
                let '(ds, r1) := scan_digits r0 in
                match ds with
                | EmptyString => None
                | _ => Some (mant +:+ String e sg +:+ ds, r1)
                end
              else Some (mant, s2)
          | EmptyString => Some (mant, s2)
          end
      end
  end.

(** *** Grammar

    Recursive descent.  A call of [parse_items] or [parse_members] costs one
    unit of [fuel] and reads at least one character, and so does a call of
    [parse_value] that opens an array or an object: twice the length of the
    text is enough, and [parse] gives more. *)
Fixpoint parse_value (fuel : nat) (s : string) : option (value * string) :=
  match fuel with
  | O => None
  | S fuel' =>
      match skip_ws s with
      | String "{" r =>
          match skip_ws r with
          | String "}" r' => Some (Obj [], r')
          | _ => parse_members fuel' r []
          end
      | String "[" r =>
          match skip_ws r with
          | String "]" r' => Some (Arr [], r')
          | _ => parse_items fuel' r []
          end
      | String "t" (String "r" (String "u" (String "e" r))) => Some (Bool true, r)
      | String "f" (String "a" (String "l" (String "s" (String "e" r)))) =>
          Some (Bool false, r)
      | String "n" (String "u" (String "l" (String "l" r))) => Some (Null, r)
      | String c r as s0 =>
          if Ascii.eqb c dquote then
            match scan_string r [] with
            | Some (str, r') => Some (Str str, r')
            | None => None
            end
          else
            match scan_number s0 with
            | Some (lit, r') => Some (Num lit, r')
            | None => None
            end
      | EmptyString => None
      end
  end
with parse_items (fuel : nat) (s : string) (acc : list value) : option (value * string) :=
  match fuel with
  | O => None
  | S fuel' =>
      match parse_value fuel' s with
      | Some (v, r) =>
          match skip_ws r with
          | String "," r' => parse_items fuel' r' (v :: acc)
          | String "]" r' => Some (Arr (rev (v :: acc)), r')
          | _ => None
          end
      | None => None
      end
  end
with parse_members (fuel : nat) (s : string) (acc : list (string * value))
  : option (value * string) :=
  match fuel with
  | O => None
  | S fuel' =>
      match skip_ws s with
      | String q r =>
          if Ascii.eqb q dquote then
            match scan_string r [] with
            | Some (k, r1) =>
                match skip_ws r1 with
                | String ":" r2 =>
                    match parse_value fuel' r2 with
                    | Some (v, r3) =>
                        match skip_ws r3 with
                        | String "," r4 => parse_members fuel' r4 ((k, v) :: acc)
                        | String "}" r4 => Some (Obj (rev ((k, v) :: acc)), r4)
                        | _ => None
                        end
                    | None => None
                    end
                | _ => None
                end
            | None => None
            end
          else None
      | EmptyString => None
      end
  end.

(** [JSON.parse(text)]: [None] is the [SyntaxError]. *)
Definition parse (text : string) : option value :=
  match parse_value (2 * String.length text + 2) text with
  | Some (v, r) =>
      match skip_ws r with
      | EmptyString => Some v
      | _ => None
      end
  | None => None
  end.

End JSON.


(** ** types.ts *)

Inductive CEFRLevel : Type := A2 | B1 | B2 | C1.

Definition CEFRLevel_string (l : CEFRLevel) : string :=
  match l with
  | A2 => "A2"
  | B1 => "B1"
  | B2 => "B2"
  | C1 => "C1"
  end.

#[global] Instance CEFRLevel_eq_dec : EqDecision CEFRLevel.
Proof. solve_decision. Defined.

Module FavoriteWord.
Record t : Type := mk { german : string; turkish : string }.
End FavoriteWord.
Abbreviation FavoriteWord := FavoriteWord.t.

Module FavoriteList.
Record t : Type := mk { id : string; name : string; words : list FavoriteWord }.
End FavoriteList.
Abbreviation FavoriteList := FavoriteList.t.

Module TranslationPair.
Record t : Type := mk { german : string; turkish : string }.
End TranslationPair.
Abbreviation TranslationPair := TranslationPair.t.

Module QuizQuestion.
Record t : Type := mk { question : string; options : list string; correctAnswer : string }.
End QuizQuestion.
Abbreviation QuizQuestion := QuizQuestion.t.

#[global] Instance FavoriteWord_eq_dec : EqDecision FavoriteWord.
Proof. solve_decision. Defined.
#[global] Instance FavoriteList_eq_dec : EqDecision FavoriteList.
Proof. solve_decision. Defined.
#[global] Instance TranslationPair_eq_dec : EqDecision TranslationPair.
Proof. solve_decision. Defined.
#[global] Instance QuizQuestion_eq_dec : EqDecision QuizQuestion.
Proof. solve_decision. Defined.

(** ** Exceptions and asynchronous results *)

Inductive error_class : Type := PlainError | SyntaxError | TypeError | ApiError.

(** A thrown JavaScript error object: its constructor and its [message]. *)
Record exn : Type := mkExn { cls : error_class; message : string }.

(** [new Error(msg)]. *)
Definition Error (msg : string) : exn := mkExn PlainError msg.

(** [error instanceof SyntaxError]. *)
Definition instanceofSyntaxError (e : exn) : bool :=
  match cls e with
  | SyntaxError => true
  | _ => false
  end.

Inductive outcome (A : Type) : Type :=
| Returned (a : A)
| Thrown (e : exn).
Arguments Returned {A} a.
Arguments Thrown {A} e.

Definition bind {A B : Type} (m : outcome A) (k : A -> outcome B) : outcome B :=
  match m with
  | Returned a => k a
  | Thrown e => Thrown e
  end.

Definition try_catch {A : Type} (body : outcome A) (handler : exn -> outcome A) : outcome A :=
  match body with
  | Returned a => Returned a
  | Thrown e => handler e
  end.

Declare Scope js_scope.
Delimit Scope js_scope with js.
Notation "'await' x <- m ; k" := (bind m (fun x => k))
  (at level 10, x name, m at level 100, k at level 200) : js_scope.

(** [JSON.parse(text)] as a statement: the value, or a thrown [SyntaxError]. *)
Definition JSON_parse (text : string) : outcome JSON.value :=
  match JSON.parse text with
  | Some v => Returned v
  | None => Thrown (mkExn SyntaxError "Unexpected token in JSON")
  end.

(** ** services/geminiService.ts *)

Module geminiService.

(** The [responseSchema] of a structured request. *)
Inductive Schema : Type :=
| STRING
| ARRAY (items : Schema)
| OBJECT (properties : list (string * Schema)) (required : list string).

Record Config : Type := mkConfig {
  responseMimeType : string;
  responseSchema : Schema
}.

Record Request : Type := mkRequest {
  model : string;
  contents : string;
  config : option Config
}.

(** The part of a response the service reads: its [text], a string as the
    operations type it. *)
Record Response : Type := mkResponse { text : string }.

Definition quoted (s : string) : string :=
  String dquote (s +:+ String dquote EmptyString).

Definition jsonConfig (schema : Schema) : option Config :=
  Some (mkConfig "application/json" schema).

Section Service.

(** [ai.models.generateContent]: the hosted model answers a request with
    a response, or the call is rejected with some error. *)
Variable generateContent : Request -> outcome Response.

#[local] Open Scope js_scope.

Definition generateText (level : CEFRLevel) (theme : string) (wordCount : nat)
    (mood : string) : outcome string :=
  let prompt :=
    "Du bist ein Deutschlehrer. Erstelle einen zusammenhängenden und interessanten Text oder eine Geschichte mit etwa "
    +:+ pretty wordCount +:+ " Wörtern für einen Deutschlerner auf dem "
    +:+ CEFRLevel_string level +:+ "-Niveau zum Thema " +:+ quoted theme
    +:+ ". Der Ton des Textes sollte " +:+ mood
    +:+ " sein. Der Text sollte klar, gut strukturiert und für das angegebene Sprachniveau angemessen sein. Antworte nur mit dem generierten Text." in
  try_catch
    (await response <- generateContent (mkRequest "gemini-2.5-flash" prompt None);
     Returned (text response))
    (fun error => Thrown (Error "Metin oluşturulurken bir hata oluştu. Lütfen tekrar deneyin.")).

Definition generateRandomTheme (level : CEFRLevel) (mood : string) : outcome string :=
  let prompt :=
    "Gib mir ein interessantes und kreatives Thema für eine " +:+ mood
    +:+ " Geschichte für einen Deutschlerner auf dem " +:+ CEFRLevel_string level
    +:+ "-Niveau. Antworte nur mit dem Thema selbst, ohne zusätzliche Sätze, Erklärungen oder Anführungszeichen." in
  try_catch
    (await response <- generateContent (mkRequest "gemini-2.5-flash" prompt None);
     Returned (stripQuotes (trim (text response))))
    (fun error => Thrown (Error "Rastgele tema oluşturulurken bir hata oluştu.")).

Definition translateText (txt : string) : outcome string :=
  let prompt :=
    "Übersetze den folgenden deutschen Text ins Türkische: " +:+ quoted txt in
  try_catch
    (await response <- generateContent (mkRequest "gemini-2.5-flash" prompt None);
     Returned (text response))
    (fun error => Thrown (Error "Çeviri sırasında bir hata oluştu.")).

Definition translateWord (word : string) : outcome string :=
  let prompt :=
    "Translate the following German word/phrase into Turkish. Provide only the most common translation. Do not add any extra text or explanations. Word: "
    +:+ quoted word in
  try_catch
    (await response <- generateContent (mkRequest "gemini-2.5-flash" prompt None);
     Returned (trim (text response)))
    (fun error => Thrown (Error "Kelime çevirisi sırasında bir hata oluştu.")).

Definition translateTextSentenceBySentence (txt : string) : outcome JSON.value :=
  let prompt :=
    "Übersetze den folgenden deutschen Text Satz für Satz ins Türkische. Gib die Antwort als JSON-Array zurück, wobei jedes Objekt die Schlüssel "
    +:+ quoted "german" +:+ " und " +:+ quoted "turkish" +:+ " hat. Der Text: "
    +:+ quoted txt in
  try_catch
    (await response <- generateContent
       (mkRequest "gemini-2.5-flash" prompt
          (jsonConfig (ARRAY (OBJECT [("german", STRING); ("turkish", STRING)] []))));
     await parsed <- JSON_parse (text response);
     Returned parsed)
    (fun error => Thrown (Error "Cümle çevirisi sırasında bir hata oluştu.")).

Definition generateQuiz (txt : string) (questionCount : nat) : outcome JSON.value :=
  let sanitizedText := escapeQuotes txt in
  let prompt :=
    "Erstelle ein Multiple-Choice-Quiz mit " +:+ pretty questionCount
    +:+ " Fragen auf Deutsch basierend auf dem folgenden deutschen Text. Das Quiz sollte das Textverständnis und den Wortschatz testen. Gib die Antwort als JSON-Array zurück. Jedes Objekt sollte die Schlüssel "
    +:+ quoted "question" +:+ " (die Frage auf Deutsch), " +:+ quoted "options"
    +:+ " (ein Array von 4 deutschen Strings als Antwortmöglichkeiten) und "
    +:+ quoted "correctAnswer"
    +:+ " (die richtige deutsche Antwort aus den Optionen) haben. Der Text: "
    +:+ quoted sanitizedText in
  try_catch
    (await response <- generateContent
       (mkRequest "gemini-2.5-flash" prompt
          (jsonConfig
             (ARRAY (OBJECT [("question", STRING); ("options", ARRAY STRING);
                             ("correctAnswer", STRING)]
                            ["question"; "options"; "correctAnswer"]))));
     await parsed <- JSON_parse (text response);
     Returned parsed)
    (fun error =>
       if instanceofSyntaxError error
       then Thrown (Error "Test oluşturulamadı çünkü modelden geçersiz bir yanıt alındı. Lütfen farklı bir metinle tekrar deneyin.")
       else Thrown (Error "Test oluşturulurken bir hata oluştu.")).

Definition explainAndExampleWord (word : string) (level : CEFRLevel) : outcome JSON.value :=
  let prompt :=
    "Erkläre das deutsche Wort/die deutsche Phrase " +:+ quoted word
    +:+ " für einen Deutschlerner auf dem " +:+ CEFRLevel_string level
    +:+ "-Niveau auf einfachem Deutsch. Gib auch 2 Beispielsätze. Gib die Antwort als JSON-Objekt mit den Schlüsseln "
    +:+ quoted "explanation" +:+ " (eine Zeichenkette) und " +:+ quoted "examples"
    +:+ " (ein Array von Zeichenketten)." in
  try_catch
    (await response <- generateContent
       (mkRequest "gemini-2.5-flash" prompt
          (jsonConfig (OBJECT [("explanation", STRING); ("examples", ARRAY STRING)]
                              ["explanation"; "examples"])));
     await parsed <- JSON_parse (text response);
     Returned parsed)
    (fun error => Thrown (Error "Kelime açıklanırken bir hata oluştu.")).

Definition clozeSchema : Schema :=
  OBJECT [("clozeText", STRING); ("answers", ARRAY STRING)] ["clozeText"; "answers"].

Definition clozeInstructions : string :=
  "Gib die Antwort als JSON-Objekt mit zwei Schlüsseln zurück: 'clozeText' (der Text, in dem jedes Zielwort durch '[___]' ersetzt wurde) und 'answers' (ein Array der ursprünglichen Wörter in der Reihenfolge, in der sie im Text erscheinen). Stelle sicher, dass die Reihenfolge der Wörter im 'answers'-Array genau der Reihenfolge der Lücken im 'clozeText' entspricht.".

Definition generateClozeTest (words : list FavoriteWord) (level : CEFRLevel)
    : outcome JSON.value :=
  let wordList := join ", " (map (fun w => quoted (FavoriteWord.german w)) words) in
  let prompt :=
    "Erstelle einen kurzen, zusammenhängenden deutschen Text von etwa 5-7 Sätzen auf dem "
    +:+ CEFRLevel_string level
    +:+ "-Niveau, der die folgenden Wörter/Phrasen natürlich verwendet: " +:+ wordList
    +:+ ". " +:+ clozeInstructions in
  try_catch
    (await response <- generateContent
       (mkRequest "gemini-2.5-flash" prompt (jsonConfig clozeSchema));
     await parsed <- JSON_parse (text response);
     Returned parsed)
    (fun error => Thrown (Error "Öğrenme modu içeriği oluşturulurken bir hata oluştu.")).

Definition generateDistractors (word context : string) : outcome JSON.value :=
  let prompt :=
    "Der folgende deutsche Satz hat eine Lücke: " +:+ quoted context
    +:+ ". Das richtige Wort für die Lücke ist " +:+ quoted word
    +:+ ". Erstelle 3 plausible, aber falsche deutsche Antwortmöglichkeiten (Distraktoren) für diese Lücke. Die Distraktoren sollten grammatikalisch in den Satz passen, aber die Bedeutung falsch machen. Gib die Antwort als JSON-Array zurück, das nur die 3 falschen Wörter enthält." in
  try_catch
    (await response <- generateContent
       (mkRequest "gemini-2.5-flash" prompt (jsonConfig (ARRAY STRING)));
     await parsed <- JSON_parse (text response);
     Returned parsed)
    (fun error => Thrown (Error "Alternatif şıklar oluşturulurken bir hata oluştu.")).

Definition generateClozeTestFromText (txt : string) (level : CEFRLevel)
    : outcome JSON.value :=
  let prompt :=
    "Basierend auf dem folgenden deutschen Text auf dem " +:+ CEFRLevel_string level
    +:+ "-Niveau, erstelle einen Lückentext (cloze test). Wähle 5-10 wichtige und für das Niveau relevante Wörter (Substantive, Verben, Adjektive) aus, die im Text ausgefüllt werden sollen. "
    +:+ clozeInstructions +:+ " Der Text: " +:+ quoted txt in
  try_catch
    (await response <- generateContent
       (mkRequest "gemini-2.5-flash" prompt (jsonConfig clozeSchema));
     await parsed <- JSON_parse (text response);
     Returned parsed)
    (fun error => Thrown (Error "Metinden öğrenme modu içeriği oluşturulurken bir hata oluştu.")).

End Service.

End geminiService.

(** ** Contracts on the values the service hands out *)

(** The text [s] with every apostrophe standing for a double quote: sample
    response bodies are written with it. *)
Fixpoint dq (s : string) : string :=
  match s with
  | EmptyString => EmptyString
  | String c s' => String (if Ascii.eqb c (ascii_of_nat 39) then dquote else c) (dq s')
  end.

Definition blankMarker : string := "[___]".

(** Blank markers of a cloze value, and its number of answers. *)
Definition clozeBlanks (v : JSON.value) : option nat :=
  match JSON.get "clozeText" v with
  | Some (JSON.Str t) => Some (countOf blankMarker t)
  | _ => None
  end.

Definition clozeAnswers (v : JSON.value) : option nat :=
  match JSON.get "answers" v with
  | Some (JSON.Arr items) => Some (length items)
  | _ => None
  end.

(** The cloze contract: as many blank markers as answers. *)
Definition clozeConsistent (v : JSON.value) : bool :=
  match clozeBlanks v, clozeAnswers v with
  | Some b, Some a => bool_decide (b = a)
  | _, _ => false
  end.

(** A model that answers every request with the same body. *)
Definition answering (body : string) : geminiService.Request -> outcome geminiService.Response :=
  fun _ => Returned (geminiService.mkResponse body).

(** A model whose every call is rejected. *)
Definition rejecting (e : exn) : geminiService.Request -> outcome geminiService.Response :=
  fun _ => Thrown e.

Definition threeBlanksTwoAnswers : string :=
  dq "{'clozeText': 'Ich [___] gern [___] und [___].', 'answers': ['lese', 'Romane']}".

(** ** The App component *)

Module App.

Module SavedText.
Record t : Type := mk {
  title : string;
  text : string;
  level : CEFRLevel;
  translations : list TranslationPair;
  quiz : list QuizQuestion
}.
End SavedText.
Abbreviation SavedText := SavedText.t.

#[global] Instance SavedText_eq_dec : EqDecision SavedText.
Proof. solve_decision. Defined.

Inductive View : Type := main | favorites.

Record ClozeData : Type := mkClozeData { clozeText : string; answers : list string }.

(** The state variables of the component, grouped under the headings the
    source gives them.  The hover and selection tooltips, the speech voice
    and the screen coordinates of the modal are view data and are left out. *)
Record CoreState : Type := mkCore {
  level : CEFRLevel;
  theme : string;
  wordCount : nat;
  mood : string;
  isLoading : bool;
  error : option string
}.

Record ContentState : Type := mkContent {
  generatedText : string;
  translatedSentences : list TranslationPair;
  quizQuestions : list QuizQuestion
}.

Record FavoritesState : Type := mkFavorites {
  favoriteLists : list FavoriteList;
  savedTexts : list SavedText;
  addToListModal : option FavoriteWord
}.

Record QuizState : Type := mkQuiz {
  currentQuizQuestion : nat;
  quizAnswers : gmap nat string;
  quizScore : option nat
}.

Record TtsState : Type := mkTts {
  isSpeaking : bool;
  speakingSentenceIndex : option nat
}.

Record ClozeState : Type := mkCloze {
  isTextClozeMode : bool;
  textClozeData : option ClozeData
}.

Record State : Type := mkState {
  view : View;
  core : CoreState;
  content : ContentState;
  favs : FavoritesState;
  quizState : QuizState;
  tts : TtsState;
  cloze : ClozeState
}.

(** *** Setters of [useState] *)

Definition withCore (f : CoreState -> CoreState) (st : State) : State :=
  mkState (view st) (f (core st)) (content st) (favs st) (quizState st) (tts st) (cloze st).
Definition withContent (f : ContentState -> ContentState) (st : State) : State :=
  mkState (view st) (core st) (f (content st)) (favs st) (quizState st) (tts st) (cloze st).
Definition withFavs (f : FavoritesState -> FavoritesState) (st : State) : State :=
  mkState (view st) (core st) (content st) (f (favs st)) (quizState st) (tts st) (cloze st).
Definition withQuiz (f : QuizState -> QuizState) (st : State) : State :=
  mkState (view st) (core st) (content st) (favs st) (f (quizState st)) (tts st) (cloze st).
Definition withTts (f : TtsState -> TtsState) (st : State) : State :=
  mkState (view st) (core st) (content st) (favs st) (quizState st) (f (tts st)) (cloze st).
Definition withCloze (f : ClozeState -> ClozeState) (st : State) : State :=
  mkState (view st) (core st) (content st) (favs st) (quizState st) (tts st) (f (cloze st)).

Definition setView (v : View) (st : State) : State :=
  mkState v (core st) (content st) (favs st) (quizState st) (tts st) (cloze st).

Definition setLevel (x : CEFRLevel) : State -> State :=
  withCore (fun c => mkCore x (theme c) (wordCount c) (mood c) (isLoading c) (error c)).
Definition setTheme (x : string) : State -> State :=
  withCore (fun c => mkCore (level c) x (wordCount c) (mood c) (isLoading c) (error c)).
Definition setWordCount (x : nat) : State -> State :=
  withCore (fun c => mkCore (level c) (theme c) x (mood c) (isLoading c) (error c)).
Definition setMood (x : string) : State -> State :=
  withCore (fun c => mkCore (level c) (theme c) (wordCount c) x (isLoading c) (error c)).
Definition setIsLoading (x : bool) : State -> State :=
  withCore (fun c => mkCore (level c) (theme c) (wordCount c) (mood c) x (error c)).
Definition setError (x : option string) : State -> State :=
  withCore (fun c => mkCore (level c) (theme c) (wordCount c) (mood c) (isLoading c) x).

Definition setGeneratedText (x : string) : State -> State :=
  withContent (fun c => mkContent x (translatedSentences c) (quizQuestions c)).
Definition setTranslatedSentences (x : list TranslationPair) : State -> State :=
  withContent (fun c => mkContent (generatedText c) x (quizQuestions c)).
Definition setQuizQuestions (x : list QuizQuestion) : State -> State :=
  withContent (fun c => mkContent (generatedText c) (translatedSentences c) x).

(** [setFavoriteLists(prev => f(prev))] and [setSavedTexts(prev => f(prev))]. *)
Definition setFavoriteLists (f : list FavoriteList -> list FavoriteList) : State -> State :=
  withFavs (fun c => mkFavorites (f (favoriteLists c)) (savedTexts c) (addToListModal c)).
Definition setSavedTexts (f : list SavedText -> list SavedText) : State -> State :=
  withFavs (fun c => mkFavorites (favoriteLists c) (f (savedTexts c)) (addToListModal c)).
Definition setAddToListModal (x : option FavoriteWord) : State -> State :=
  withFavs (fun c => mkFavorites (favoriteLists c) (savedTexts c) x).

Definition setCurrentQuizQuestion (x : nat) : State -> State :=
  withQuiz (fun c => mkQuiz x (quizAnswers c) (quizScore c)).
Definition setQuizAnswers (x : gmap nat string) : State -> State :=
  withQuiz (fun c => mkQuiz (currentQuizQuestion c) x (quizScore c)).
Definition setQuizScore (x : option nat) : State -> State :=
  withQuiz (fun c => mkQuiz (currentQuizQuestion c) (quizAnswers c) x).

Definition setIsSpeaking (x : bool) : State -> State :=
  withTts (fun c => mkTts x (speakingSentenceIndex c)).
Definition setSpeakingSentenceIndex (x : option nat) : State -> State :=
  withTts (fun c => mkTts (isSpeaking c) x).

Definition setIsTextClozeMode (x : bool) : State -> State :=
  withCloze (fun c => mkCloze x (textClozeData c)).
Definition setTextClozeData (x : option ClozeData) : State -> State :=
  withCloze (fun c => mkCloze (isTextClozeMode c) x).

(** Statements of a handler, in the order of the source. *)
Notation "st |> f" := (f st) (at level 45, left associativity, only parsing).

Definition newline : string := String (ascii_of_nat 10) EmptyString.

(** [items.forEach((q, index) => ...)] over a mutable accumulator. *)
Fixpoint forEachFrom {A S : Type} (body : S -> A -> nat -> S) (index : nat)
    (items : list A) (acc : S) : S :=
  match items with
  | [] => acc
  | q :: rest => forEachFrom body (index + 1) rest (body acc q index)
  end.

Definition forEach {A S : Type} (body : S -> A -> nat -> S) (items : list A) (acc : S) : S :=
  forEachFrom body 0 items acc.

(** The file a click on the download link saves. *)
Record Download : Type := mkDownload {
  download : string;
  mimeType : string;
  fileContent : string
}.

Section Component.

(** [String.prototype.toLowerCase] of the platform. *)
Variable toLowerCase : string -> string.

(** [MOODS[0]] of the constants module. *)
Variable defaultMood : string.

(** The three service operations [handleGenerate] awaits, at the types the
    component stores their results at; a result of these types is never
    [null], so the tests [if (sentences)] and [if (quiz)] always pass. *)
Variable generateText : CEFRLevel -> string -> nat -> string -> outcome string.
Variable translateTextSentenceBySentence : string -> outcome (list TranslationPair).
Variable generateQuiz : string -> nat -> outcome (list QuizQuestion).

(** The statements of [handleGenerate] before its [try] block. *)
Definition handleGenerate_reset (levelToUse : CEFRLevel) (themeToUse moodToUse : string)
    (st : State) : State :=
  st |> setIsLoading true
     |> setError None
     |> setGeneratedText ""
     |> setTranslatedSentences []
     |> setQuizQuestions []
     |> setQuizScore None
     |> setCurrentQuizQuestion 0
     |> setQuizAnswers ∅
     |> setIsTextClozeMode false
     |> setTextClozeData None
     |> setLevel levelToUse
     |> setTheme themeToUse
     |> setMood moodToUse.

(** The [try] block: the three calls in sequence, each state update taking
    effect before the next call; the result is the state reached and the
    exception, if one was thrown. *)
Definition handleGenerate_calls (levelToUse : CEFRLevel) (themeToUse moodToUse : string)
    (count : nat) (st : State) : State * option exn :=
  match generateText levelToUse themeToUse count moodToUse with
  | Thrown e => (st, Some e)
  | Returned text =>
      let st1 := st |> setGeneratedText text in
      match translateTextSentenceBySentence text with
      | Thrown e => (st1, Some e)
      | Returned sentences =>
          let st2 := st1 |> setTranslatedSentences sentences in
          match generateQuiz text 5 with
          | Thrown e => (st2, Some e)
          | Returned quiz => (st2 |> setQuizQuestions quiz, None)
          end
      end
  end.

Definition handleGenerate (levelToUse : CEFRLevel) (themeToUse moodToUse : string)
    (st : State) : State :=
  let st0 := handleGenerate_reset levelToUse themeToUse moodToUse st in
  let '(st1, thrown) :=
    handleGenerate_calls levelToUse themeToUse moodToUse (wordCount (core st)) st0 in
  let st2 :=
    match thrown with
    | Some e => st1 |> setError (Some "İçerik oluşturulurken bir hata oluştu. Lütfen tekrar deneyin.")
    | None => st1
    end in
  st2 |> setIsLoading false.

(** The state updates of [handleStartNewStory]; the cancellation of the
    running utterance and the scrolling are effects on the window. *)
Definition handleStartNewStory (st : State) : State :=
  st |> setIsSpeaking false
     |> setSpeakingSentenceIndex None
     |> setGeneratedText ""
     |> setTranslatedSentences []
     |> setQuizQuestions []
     |> setError None
     |> setQuizScore None
     |> setCurrentQuizQuestion 0
     |> setQuizAnswers ∅
     |> setIsTextClozeMode false
     |> setTextClozeData None
     |> setLevel A2
     |> setTheme ""
     |> setWordCount 150
     |> setMood defaultMood.

(** [w.german.toLowerCase() === term.toLowerCase()]. *)
Definition sameTerm (term : string) (w : FavoriteWord) : Prop :=
  toLowerCase (FavoriteWord.german w) = toLowerCase term.

#[local] Instance sameTerm_dec term w : Decision (sameTerm term w).
Proof. unfold sameTerm. apply _. Defined.

(** The callback of [prev.map] in [handleAddWordToList]. *)
Definition addWordTo (word : FavoriteWord) (listId : string) (list : FavoriteList)
    : FavoriteList :=
  if bool_decide (FavoriteList.id list = listId) then
    if bool_decide (Exists (sameTerm (FavoriteWord.german word)) (FavoriteList.words list))
    then list
    else FavoriteList.mk (FavoriteList.id list) (FavoriteList.name list)
           (FavoriteList.words list ++ [word])
  else list.

Definition handleAddWordToList (word : FavoriteWord) (listId : string) (st : State) : State :=
  st |> setFavoriteLists (fun prev => map (addWordTo word listId) prev)
     |> setAddToListModal None.

(** The callback of [prev.map] in [handleRemoveWordFromList]. *)
Definition removeWordFrom (germanWord listId : string) (list : FavoriteList) : FavoriteList :=
  if bool_decide (FavoriteList.id list = listId) then
    FavoriteList.mk (FavoriteList.id list) (FavoriteList.name list)
      (filter (fun w => ~ sameTerm germanWord w) (FavoriteList.words list))
  else list.

Definition handleRemoveWordFromList (germanWord listId : string) (st : State) : State :=
  st |> setFavoriteLists (fun prev => map (removeWordFrom germanWord listId) prev).

Definition isWordInFavorites (germanWord : string) (st : State) : bool :=
  let lowerGerman := toLowerCase germanWord in
  bool_decide (Exists (fun list =>
    Exists (fun w => toLowerCase (FavoriteWord.german w) = lowerGerman)
           (FavoriteList.words list)) (favoriteLists (favs st))).

Definition isTextSaved (st : State) : bool :=
  bool_decide (Exists (fun t => SavedText.text t = generatedText (content st))
                      (savedTexts (favs st))).

Definition handleSaveText (st : State) : State :=
  if bool_decide (generatedText (content st) = "") || isTextSaved st then st
  else
    let newSavedText :=
      SavedText.mk (theme (core st)) (generatedText (content st)) (level (core st))
        (translatedSentences (content st)) (quizQuestions (content st)) in
    st |> setSavedTexts (fun prev => newSavedText :: prev).

Definition handleLoadText (textToLoad : SavedText) (st : State) : State :=
  st |> setTheme (SavedText.title textToLoad)
     |> setLevel (SavedText.level textToLoad)
     |> setGeneratedText (SavedText.text textToLoad)
     |> setTranslatedSentences (SavedText.translations textToLoad)
     |> setQuizQuestions (SavedText.quiz textToLoad)
     |> setQuizScore None
     |> setCurrentQuizQuestion 0
     |> setQuizAnswers ∅
     |> setIsTextClozeMode false
     |> setTextClozeData None
     |> setView main.

Definition handleDeleteText (textToDelete : SavedText) (st : State) : State :=
  st |> setSavedTexts (fun prev =>
          filter (fun t => SavedText.text t ≠ SavedText.text textToDelete) prev).

(** The template literal of [handleExportTexts]. *)
Definition exportBlock (t : SavedText) : string :=
  "--- " +:+ SavedText.title t +:+ " (" +:+ CEFRLevel_string (SavedText.level t)
  +:+ ") ---" +:+ newline +:+ newline +:+ SavedText.text t +:+ newline +:+ newline.

(** [None] when the handler returns before making a file. *)
Definition handleExportTexts (st : State) : option Download :=
  if bool_decide (length (savedTexts (favs st)) = 0) then None
  else
    let fileContent := join newline (map exportBlock (savedTexts (favs st))) in
    Some (mkDownload "deutsch-meister-favoriler.txt" "text/plain;charset=utf-8" fileContent).

Definition handleAnswer (questionIndex : nat) (answer : string) (st : State) : State :=
  st |> setQuizAnswers (<[questionIndex := answer]> (quizAnswers (quizState st))).

Definition submitQuiz (st : State) : State :=
  let score :=
    forEach (fun score q index =>
               if bool_decide (quizAnswers (quizState st) !! index
                               = Some (QuizQuestion.correctAnswer q))
               then score + 1 else score)
            (quizQuestions (content st)) 0 in
  st |> setQuizScore (Some score).

Definition resetQuiz (st : State) : State :=
  st |> setQuizScore None
     |> setCurrentQuizQuestion 0
     |> setQuizAnswers ∅.

End Component.

(** *** The handlers and views beside the ones above *)

(** A command to [window.speechSynthesis]: [cancel()], or [speak] with the
    utterance of the sentence at [index]; the language and the voice of an
    utterance are left out. *)
Inductive SpeechCommand : Type :=
| Cancel
| Speak (index : nat) (sentence : string).

(** A call of a state setter by the effect that reads the local storage. *)
Inductive StoredCall : Type :=
| SetFavoriteLists (parsed : JSON.value)
| SetSavedTexts (parsed : JSON.value).

(** [getPreview], a constant of the file. *)
Definition getPreview (text : string) : string :=
  join " " (take 10 (split " " text)) +:+ "...".

(** The effect run when the component mounts: [getItem] is
    [localStorage.getItem], [None] its [null]; a [SyntaxError] of
    [JSON.parse] leaves the [try] block. *)
Definition loadStored (getItem : string -> option string) : list StoredCall :=
  let loadTexts :=
    match getItem "savedTexts" with
    | Some (String _ _ as storedTexts) =>
        match JSON.parse storedTexts with
        | Some parsed => [SetSavedTexts parsed]
        | None => []
        end
    | _ => []
    end in
  match getItem "favoriteLists" with
  | Some (String _ _ as storedLists) =>
      match JSON.parse storedLists with
      | Some parsed => SetFavoriteLists parsed :: loadTexts
      | None => []
      end
  | _ => loadTexts
  end.

(** [QuizView]: the questions listed as answered wrongly, each with its
    index. *)
Definition incorrectAnswers (questions : list QuizQuestion) (answers : gmap nat string)
    : list (nat * QuizQuestion) :=
  filter (fun iq => answers !! iq.1 <> Some (QuizQuestion.correctAnswer iq.2))
         (imap (fun i q => (i, q)) questions).

(** [QuizView]: the [disabled] test of the submit button. *)
Definition submitDisabled (questions : list QuizQuestion) (answers : gmap nat string) : bool :=
  bool_decide (size answers <> length questions).

(** The cloze views: the parts of the text around the blanks, each with the
    index of the input rendered after it, if one is. *)
Definition clozeParts (clozeData : ClozeData) : list string :=
  split "[___]" (clozeText clozeData).

Definition clozeFragments (clozeData : ClozeData) : list (string * option nat) :=
  imap (fun i part =>
          (part, if bool_decide (i < length (answers clozeData)) then Some i else None))
       (clozeParts clozeData).

Section Handlers.

(** [String.prototype.toLowerCase] and [String.prototype.trim]. *)
Variable toLowerCase : string -> string.
Variable trim : string -> string.

(** The service operations, at the types the component uses their results
    at. *)
Variable generateText : CEFRLevel -> string -> nat -> string -> outcome string.
Variable translateTextSentenceBySentence : string -> outcome (list TranslationPair).
Variable generateQuiz : string -> nat -> outcome (list QuizQuestion).
Variable generateRandomTheme : CEFRLevel -> string -> outcome string.
Variable generateClozeTestFromText : string -> CEFRLevel -> outcome ClozeData.

(** [handleGenerate] catches what its calls throw, so the handler below is
    entered only from [generateRandomTheme]. *)
Definition handleGenerateRandom (st : State) : State :=
  let st0 := st |> setIsLoading true |> setError None in
  match generateRandomTheme (level (core st)) (mood (core st)) with
  | Returned randomTheme =>
      handleGenerate generateText translateTextSentenceBySentence generateQuiz
        (level (core st)) randomTheme (mood (core st)) st0
  | Thrown e =>
      st0 |> setError (Some "Rastgele tema oluşturulurken bir hata oluştu.")
          |> setIsLoading false
  end.

(** The text and the translation of the tooltip [handleWordHover] sets. *)
Definition handleWordHover (germanSentence : string) (st : State) : string * string :=
  let translation :=
    match List.find (fun s => bool_decide (TranslationPair.german s = germanSentence))
                    (translatedSentences (content st)) with
    | Some s =>
        if bool_decide (TranslationPair.turkish s = "") then "..."
        else TranslationPair.turkish s
    | None => "..."
    end in
  (germanSentence, translation).

Definition handleOpenAddToList (german turkish : string) (st : State) : State :=
  if bool_decide (turkish = "") || bool_decide (turkish = "Çeviri hatası") then st
  else st |> setAddToListModal (Some (FavoriteWord.mk german turkish)).

(** [uuid] is what [crypto.randomUUID()] gives in this call. *)
Definition handleCreateList (uuid listName : string) (st : State)
    : State * option FavoriteList :=
  if bool_decide (trim listName = "") then (st, None)
  else
    let newList := FavoriteList.mk uuid (trim listName) [] in
    (st |> setFavoriteLists (fun prev => newList :: prev), Some newList).

Definition handleDeleteList (listId : string) (st : State) : State :=
  st |> setFavoriteLists (fun prev =>
          filter (fun list => FavoriteList.id list <> listId) prev).

(** [handleCreateAndAdd] of [AddToListModal], for the word of the modal. *)
Definition handleCreateAndAdd (uuid newListName : string) (modalData : FavoriteWord)
    (st : State) : State :=
  let '(st1, newList) := handleCreateList uuid newListName st in
  match newList with
  | Some created =>
      handleAddWordToList toLowerCase
        (FavoriteWord.mk (FavoriteWord.german modalData) (FavoriteWord.turkish modalData))
        (FavoriteList.id created) st1
  | None => st1
  end.

(** [playSentences(index)]: the state after the call and the utterance
    handed to [speak], if one is.  The sentences read are those of the
    state, which are the ones the handler sees as long as the content is not
    replaced while reading goes on.  A call with [fuel] left passes on
    [fuel] less one to the call for the next index. *)
Fixpoint playSentences_fuel (fuel : nat) (index : nat) (st : State)
    : State * list SpeechCommand :=
  if bool_decide (length (translatedSentences (content st)) <= index) then
    (st |> setIsSpeaking false |> setSpeakingSentenceIndex None, [])
  else
    let st1 := st |> setSpeakingSentenceIndex (Some index) in
    match translatedSentences (content st) !! index with
    | Some entry =>
        let sentence := TranslationPair.german entry in
        if bool_decide (trim sentence = "") then
          match fuel with
          | S fuel' => playSentences_fuel fuel' (index + 1) st1
          | O => (st1, [])
          end
        else (st1, [Speak index sentence])
    | None => (st1, [])
    end.

(** Every call moves to the next index, and the call at the length of the
    list makes none. *)
Definition playSentences (index : nat) (st : State) : State * list SpeechCommand :=
  playSentences_fuel (length (translatedSentences (content st)) - index) index st.

(** [busy] is [speechSynthesis.speaking || speechSynthesis.pending]. *)
Definition handlePlayPause (isTtsSupported busy : bool) (st : State)
    : State * list SpeechCommand :=
  if negb isTtsSupported then
    (st |> setError (Some "Seslendirme özelliği bu tarayıcıda desteklenmiyor."), [])
  else if isSpeaking (tts st) then
    (st |> setIsSpeaking false |> setSpeakingSentenceIndex None, [Cancel])
  else if bool_decide (0 < length (translatedSentences (content st))) then
    let '(st', spoken) := playSentences 0 (st |> setIsSpeaking true) in
    (st', (if busy then [Cancel] else []) ++ spoken)
  else (st, []).

(** [utterance.onend] of the utterance spoken for [index]. *)
Definition utterance_onend (index : nat) (st : State) : State * list SpeechCommand :=
  playSentences (index + 1) st.

(** [utterance.onerror] with [event.error]. *)
Definition utterance_onerror (error : string) (st : State) : State :=
  if bool_decide (error = "canceled") || bool_decide (error = "interrupted") then st
  else
    st |> setError (Some "Seslendirme sırasında bir hata oluştu.")
       |> setIsSpeaking false
       |> setSpeakingSentenceIndex None.

(** [isGeneratingCloze], set for the time of the call and cleared when it is
    over, is view data. *)
Definition handleStartTextClozeMode (st : State) : State :=
  if bool_decide (generatedText (content st) = "") then st
  else
    let st0 := st |> setError None in
    match generateClozeTestFromText (generatedText (content st)) (level (core st)) with
    | Returned data =>
        if bool_decide (0 < length (answers data)) then
          st0 |> setTextClozeData (Some data) |> setIsTextClozeMode true
        else
          st0 |> setError (Some "Bu metin için öğrenme modu oluşturulamadı. Lütfen farklı bir metin deneyin.")
    | Thrown e =>
        st0 |> setError (Some "Öğrenme modu oluşturulurken bir hata oluştu.")
    end.

End Handlers.

End App.

(** ** Contracts on the component *)

Section QuizContract.

Variable questions : list QuizQuestion.
Variable answers : gmap nat string.

(** The recorded answer at index [i] equals [questions[i].correctAnswer]. *)
Definition correctAt (i : nat) : bool :=
  match questions !! i with
  | Some q => bool_decide (answers !! i = Some (QuizQuestion.correctAnswer q))
  | None => false
  end.

(** The number of question indices answered correctly. *)
Definition countCorrect : nat :=
  length (filter (fun i => correctAt i = true) (seq 0 (length questions))).

(** The number of question indices with a recorded answer. *)
Definition countAnswered : nat :=
  length (filter (fun i => is_Some (answers !! i)) (seq 0 (length questions))).

End QuizContract.

(** ** Contracts on the service *)

(** The strings of an array of strings; [None] when an item is not one. *)
Fixpoint stringItems (items : list JSON.value) : option (list string) :=
  match items with
  | [] => Some []
  | JSON.Str s :: rest =>
      match stringItems rest with
      | Some l => Some (s :: l)
      | None => None
      end
  | _ :: _ => None
  end.

(** The quiz contract on one question: exactly four options, no two of them
    equal, and the correct answer among them. *)
Definition questionWellFormed (q : JSON.value) : bool :=
  match JSON.get "options" q, JSON.get "correctAnswer" q with
  | Some (JSON.Arr items), Some (JSON.Str answer) =>
      match stringItems items with
      | Some options =>
          bool_decide (length options = 4 /\ NoDup options /\ answer ∈ options)
      | None => false
      end
  | _, _ => false
  end.

Definition quizWellFormed (v : JSON.value) : bool :=
  match v with
  | JSON.Arr questions => forallb questionWellFormed questions
  | _ => false
  end.

(** The shape of a sentence translation: an array whose every entry has a
    string under [german] and a string under [turkish]. *)
Definition pairWellFormed (entry : JSON.value) : bool :=
  match JSON.get "german" entry, JSON.get "turkish" entry with
  | Some (JSON.Str _), Some (JSON.Str _) => true
  | _, _ => false
  end.

Definition pairsWellFormed (v : JSON.value) : bool :=
  match v with
  | JSON.Arr entries => forallb pairWellFormed entries
  | _ => false
  end.

(** The operations of the service with their arguments, and what a call
    of one gives. *)
Inductive operation : Type :=
| GenerateText (level : CEFRLevel) (theme : string) (wordCount : nat) (mood : string)
| GenerateRandomTheme (level : CEFRLevel) (mood : string)
| TranslateText (txt : string)
| TranslateWord (word : string)
| TranslateTextSentenceBySentence (txt : string)
| GenerateQuiz (txt : string) (questionCount : nat)
| ExplainAndExampleWord (word : string) (level : CEFRLevel)
| GenerateClozeTest (words : list FavoriteWord) (level : CEFRLevel)
| GenerateDistractors (word context : string)
| GenerateClozeTestFromText (txt : string) (level : CEFRLevel).

Inductive result : Type :=
| PlainText (s : string)
| Structured (v : JSON.value).

Definition fmap_outcome {A B : Type} (f : A -> B) (m : outcome A) : outcome B :=
  bind m (fun a => Returned (f a)).

Definition invoke (generateContent : geminiService.Request -> outcome geminiService.Response)
    (op : operation) : outcome result :=
  match op with
  | GenerateText level theme wordCount mood =>
      fmap_outcome PlainText (geminiService.generateText generateContent level theme wordCount mood)
  | GenerateRandomTheme level mood =>
      fmap_outcome PlainText (geminiService.generateRandomTheme generateContent level mood)
  | TranslateText txt =>
      fmap_outcome PlainText (geminiService.translateText generateContent txt)
  | TranslateWord word =>
      fmap_outcome PlainText (geminiService.translateWord generateContent word)
  | TranslateTextSentenceBySentence txt =>
      fmap_outcome Structured
        (geminiService.translateTextSentenceBySentence generateContent txt)
  | GenerateQuiz txt questionCount =>
      fmap_outcome Structured (geminiService.generateQuiz generateContent txt questionCount)
  | ExplainAndExampleWord word level =>
      fmap_outcome Structured (geminiService.explainAndExampleWord generateContent word level)
  | GenerateClozeTest words level =>
      fmap_outcome Structured (geminiService.generateClozeTest generateContent words level)
  | GenerateDistractors word context =>
      fmap_outcome Structured (geminiService.generateDistractors generateContent word context)
  | GenerateClozeTestFromText txt level =>
      fmap_outcome Structured (geminiService.generateClozeTestFromText generateContent txt level)
  end.

(** The operations that read the response with [JSON.parse]. *)
Definition parsesJson (op : operation) : bool :=
  match op with
  | GenerateText _ _ _ _ | GenerateRandomTheme _ _ | TranslateText _ | TranslateWord _ => false
  | _ => true
  end.

Definition isGenerateQuiz (op : operation) : bool :=
  match op with
  | GenerateQuiz _ _ => true
  | _ => false
  end.

(** The message of the error an operation throws from its handler. *)
Definition failureMessage (op : operation) : string :=
  match op with
  | GenerateText _ _ _ _ => "Metin oluşturulurken bir hata oluştu. Lütfen tekrar deneyin."
  | GenerateRandomTheme _ _ => "Rastgele tema oluşturulurken bir hata oluştu."
  | TranslateText _ => "Çeviri sırasında bir hata oluştu."
  | TranslateWord _ => "Kelime çevirisi sırasında bir hata oluştu."
  | TranslateTextSentenceBySentence _ => "Cümle çevirisi sırasında bir hata oluştu."
  | GenerateQuiz _ _ => "Test oluşturulurken bir hata oluştu."
  | ExplainAndExampleWord _ _ => "Kelime açıklanırken bir hata oluştu."
  | GenerateClozeTest _ _ => "Öğrenme modu içeriği oluşturulurken bir hata oluştu."
  | GenerateDistractors _ _ => "Alternatif şıklar oluşturulurken bir hata oluştu."
  | GenerateClozeTestFromText _ _ =>
      "Metinden öğrenme modu içeriği oluşturulurken bir hata oluştu."
  end.

(** The message [generateQuiz] gives for a caught [SyntaxError]. *)
Definition invalidResponseMessage : string :=
  "Test oluşturulamadı çünkü modelden geçersiz bir yanıt alındı. Lütfen farklı bir metinle tekrar deneyin.".

(** The message of the error thrown when the handler caught [raw]. *)
Definition handlerMessage (op : operation) (raw : exn) : string :=
  if isGenerateQuiz op && instanceofSyntaxError raw then invalidResponseMessage
  else failureMessage op.

(** *** Sample responses *)

Definition threeOptionsQuiz : string :=
  dq "[{'question': 'Was liest Anna?', 'options': ['ein Buch', 'ein Buch', 'eine Zeitung'], 'correctAnswer': 'einen Brief'}]".

Definition pairWithoutTurkish : string :=
  dq "[{'german': 'Guten Morgen.'}]".

Definition objectInsteadOfArray : string :=
  dq "{'german': 'Guten Morgen.', 'turkish': 'Gunaydin.'}".

Definition wellFormedCloze : string :=
  dq "{'clozeText': 'Ich [___] gern [___].', 'answers': ['lese', 'Romane']}".

Definition notJson : string := "Entschuldigung, das kann ich nicht.".

Definition serviceUnavailable : exn := mkExn ApiError "503 Service Unavailable".

(** The export file as a plain concatenation of the blocks. *)
Definition concatenatedBlocks (texts : list App.SavedText) : string :=
  foldr String.append EmptyString (map App.exportBlock texts).

(** The header line of a block. *)
Definition headerLine (t : App.SavedText) : string :=
  "--- " +:+ App.SavedText.title t +:+ " (" +:+ CEFRLevel_string (App.SavedText.level t)
  +:+ ") ---" +:+ App.newline.

(** The number of archive entries whose body text is [body]. *)
Definition entriesWithText (body : string) (texts : list App.SavedText) : nat :=
  length (filter (fun t => App.SavedText.text t = body) texts).

(** *** Contracts on the handlers and views beside the claims *)

(** The utterance a list of speech commands hands to [speak]. *)
Definition spokenUtterance (cmds : list App.SpeechCommand) : option (nat * string) :=
  List.find (fun c => match c with App.Speak _ _ => true | App.Cancel => false end) cmds
  ≫= fun c => match c with App.Speak i s => Some (i, s) | App.Cancel => None end.

(** Playback without interruption: every utterance handed to [speak] is
    spoken to its end, and the platform then calls its [onend].  The result
    is the state when no utterance is left and the sentences spoken, in
    the order of speaking; [fuel] bounds the number of utterances. *)
Fixpoint playback (trim : string -> string) (fuel : nat) (cmds : list App.SpeechCommand)
    (st : App.State) : App.State * list string :=
  match spokenUtterance cmds with
  | Some (index, sentence) =>
      match fuel with
      | S fuel' =>
          let '(st', next) := App.utterance_onend trim index st in
          let '(st'', spoken) := playback trim fuel' next st' in
          (st'', sentence :: spoken)
      | O => (st, [sentence])
      end
  | None => (st, [])
  end.

(** Every character of [s] is white space. *)
Fixpoint allSpaces (s : string) : bool :=
  match s with
  | EmptyString => true
  | String c s' => isSpace c && allSpaces s'
  end.

(** The first sentence of [rest] that is not blank, with its index when
    [rest] begins at [index]. *)
Fixpoint nextSpoken (trim : string -> string) (index : nat) (rest : list TranslationPair)
    : option (nat * string) :=
  match rest with
  | [] => None
  | entry :: rest' =>
      if bool_decide (trim (TranslationPair.german entry) = "")
      then nextSpoken trim (S index) rest'
      else Some (index, TranslationPair.german entry)
  end.

(** The state with speech stopped. *)
Definition speechStopped (st : App.State) : App.State :=
  App.setSpeakingSentenceIndex None (App.setIsSpeaking false st).

(** No two words of a list have the same term, letter case apart. *)
Definition distinctTerms (toLowerCase : string -> string) (list : FavoriteList) : Prop :=
  NoDup ((fun w => toLowerCase (FavoriteWord.german w)) <$> FavoriteList.words list).

(** No two entries of the archive have the same body text, and no body
    text is empty. *)
Definition archiveDistinct (texts : list App.SavedText) : Prop :=
  NoDup (App.SavedText.text <$> texts) /\ Forall (fun t => App.SavedText.text t <> "") texts.

(** The word of an open modal has a translation, and not the text shown for
    a failed one. *)
Definition modalTranslated (st : App.State) : Prop :=
  forall w, App.addToListModal (App.favs st) = Some w ->
    FavoriteWord.turkish w <> "" /\ FavoriteWord.turkish w <> "Çeviri hatası".

(** *** Sample states *)

(** [toLowerCase] on the letters A to Z. *)
Definition asciiLowerChar (c : ascii) : ascii :=
  let n := nat_of_ascii c in
  if (65 <=? n)%nat && (n <=? 90)%nat then ascii_of_nat (n + 32) else c.

Fixpoint asciiLower (s : string) : string :=
  match s with
  | EmptyString => EmptyString
  | String c s' => String (asciiLowerChar c) (asciiLower s')
  end.

(** The state of the component when it mounts. *)
Definition initialState (defaultMood : string) : App.State :=
  App.mkState App.main
    (App.mkCore A2 "" 150 defaultMood false None)
    (App.mkContent "" [] [])
    (App.mkFavorites [] [] None)
    (App.mkQuiz 0 ∅ None)
    (App.mkTts false None)
    (App.mkCloze false None).

Definition verbs : FavoriteList :=
  FavoriteList.mk "7f3c" "Verben"
    [FavoriteWord.mk "Lesen" "okumak"; FavoriteWord.mk "gehen" "gitmek";
     FavoriteWord.mk "LESEN" "okumak"].

Definition nouns : FavoriteList :=
  FavoriteList.mk "a91e" "Nomen" [FavoriteWord.mk "lesen" "okuma"].

Definition adjectives : FavoriteList :=
  FavoriteList.mk "c502" "Adjektive"
    [FavoriteWord.mk "schön" "güzel"; FavoriteWord.mk "Klein" "küçük"].

(** Two lists without a repeated term. *)
Definition tidyLists : App.State :=
  App.setFavoriteLists (fun _ => [adjectives; nouns]) (initialState "neutral").

Definition withLists : App.State :=
  App.setFavoriteLists (fun _ => [verbs; nouns]) (initialState "neutral").

Definition berlinQuiz : list QuizQuestion :=
  [QuizQuestion.mk "Wo wohnt Anna?" ["Berlin"; "Wien"; "Bern"; "Graz"] "Berlin";
   QuizQuestion.mk "Was trinkt sie?" ["Tee"; "Kaffee"; "Saft"; "Milch"] "Kaffee";
   QuizQuestion.mk "Wann steht sie auf?" ["um 6"; "um 7"; "um 8"; "um 9"] "um 7"].

Definition berlinPairs : list TranslationPair :=
  [TranslationPair.mk "Anna wohnt in Berlin." "Anna Berlin'de oturuyor.";
   TranslationPair.mk "Sie trinkt Kaffee." "Kahve içiyor.";
   TranslationPair.mk "Sie steht um 7 auf." "Saat 7'de kalkıyor."].

(** A story on screen, its quiz partly answered and scored, a cloze
    exercise open, and the third sentence being read aloud. *)
Definition readingAloud : App.State :=
  App.mkState App.main
    (App.mkCore A2 "Ein Tag in Berlin" 150 "neutral" false None)
    (App.mkContent "Anna wohnt in Berlin. Sie trinkt Kaffee. Sie steht um 7 auf."
       berlinPairs berlinQuiz)
    (App.mkFavorites [] [] None)
    (App.mkQuiz 2 (<[0 := "Berlin"]> (<[1 := "Tee"]> ∅)) (Some 1))
    (App.mkTts true (Some 2))
    (App.mkCloze true (Some (App.mkClozeData "Anna [___] in Berlin." ["wohnt"]))).

(** A story on screen with a blank second sentence, nothing being read. *)
Definition quietStory : App.State :=
  App.mkState App.main
    (App.mkCore A2 "Ein Tag in Berlin" 150 "neutral" false None)
    (App.mkContent "Anna wohnt in Berlin.  Sie trinkt Kaffee."
       [TranslationPair.mk "Anna wohnt in Berlin." "Anna Berlin'de oturuyor.";
        TranslationPair.mk " " "";
        TranslationPair.mk "Sie trinkt Kaffee." "Kahve içiyor."]
       berlinQuiz)
    (App.mkFavorites [] [] None)
    (App.mkQuiz 0 ∅ None)
    (App.mkTts false None)
    (App.mkCloze false None).

(** A local storage whose list entry is cut short and whose text entry is
    an empty array. *)
Definition brokenListsStorage (key : string) : option string :=
  if String.eqb key "favoriteLists" then Some "[{"
  else if String.eqb key "savedTexts" then Some "[]"
  else None.

(** A local storage whose text entry is cut short and whose list entry is
    an empty array. *)
Definition brokenTextsStorage (key : string) : option string :=
  if String.eqb key "favoriteLists" then Some "[]"
  else if String.eqb key "savedTexts" then Some "[{"
  else None.

Definition savedBerlin : App.SavedText :=
  App.SavedText.mk "Ein Tag in Berlin" "Anna wohnt in Berlin." A2 [] [].

Definition savedWien : App.SavedText :=
  App.SavedText.mk "Wien" "Wien ist schön." B1 [] [].

Definition withArchive : App.State :=
  App.setSavedTexts (fun _ => [savedBerlin; savedWien]) (initialState "neutral").

(** ** Proofs: quiz scoring *)

Section QuizProofs.

Lemma filter_ext_elem {A : Type} (P Q : A -> Prop)
    `{forall x, Decision (P x)} `{forall x, Decision (Q x)} (l : list A) :
  (forall x, x ∈ l -> P x <-> Q x) -> filter P l = filter Q l.
Proof.
  induction l as [|x l IH]; intros HPQ; [done |].
  rewrite !filter_cons.
  assert (Hx : P x <-> Q x) by (apply HPQ; left).
  rewrite IH by (intros y Hy; apply HPQ; by right).
  repeat case_decide; tauto.
Qed.

Lemma filter_length_mono {A : Type} (P Q : A -> Prop)
    `{forall x, Decision (P x)} `{forall x, Decision (Q x)} (l : list A) :
  (forall x, P x -> Q x) -> length (filter P l) <= length (filter Q l).
Proof.
  intros HPQ. induction l as [|x l IH]; [done |].
  rewrite !filter_cons. repeat case_decide; simpl; try lia.
  exfalso; auto.
Qed.

Lemma forEachFrom_snoc {A S : Type} (body : S -> A -> nat -> S) items q :
  forall index acc,
    App.forEachFrom body index (items ++ [q]) acc
    = body (App.forEachFrom body index items acc) q (index + length items).
Proof.
  induction items as [|x items IH]; intros index acc; simpl.
  - by rewrite Nat.add_0_r.
  - rewrite IH. f_equal. lia.
Qed.

Lemma correctAt_app_l questions q answers i :
  i < length questions ->
  correctAt (questions ++ [q]) answers i = correctAt questions answers i.
Proof. intros Hi. unfold correctAt. by rewrite lookup_app_l. Qed.

Lemma correctAt_last questions q answers :
  correctAt (questions ++ [q]) answers (length questions)
  = bool_decide (answers !! length questions = Some (QuizQuestion.correctAnswer q)).
Proof. unfold correctAt. by rewrite list_lookup_middle. Qed.

Lemma countCorrect_snoc questions q answers :
  countCorrect (questions ++ [q]) answers
  = countCorrect questions answers
    + (if correctAt (questions ++ [q]) answers (length questions) then 1 else 0).
Proof.
  unfold countCorrect.
  rewrite length_app, Nat.add_1_r, seq_S, filter_app, length_app. simpl.
  f_equal.
  - f_equal. apply filter_ext_elem. intros i Hi.
    apply elem_of_seq in Hi. rewrite correctAt_app_l; [done | lia].
  - rewrite filter_cons, filter_nil.
    destruct (correctAt (questions ++ [q]) answers (length questions)) eqn:E;
      case_decide; done.
Qed.

Lemma forEach_counts questions answers :
  App.forEach (fun score q index =>
                 if bool_decide (answers !! index = Some (QuizQuestion.correctAnswer q))
                 then score + 1 else score) questions 0
  = countCorrect questions answers.
Proof.
  unfold App.forEach.
  induction questions as [|q questions IH] using rev_ind; [done |].
  rewrite forEachFrom_snoc, IH, countCorrect_snoc, correctAt_last. simpl.
  case_bool_decide; lia.
Qed.

Lemma correctAt_answered questions answers i :
  correctAt questions answers i = true -> is_Some (answers !! i).
Proof.
  unfold correctAt. destruct (questions !! i); [|done].
  intros H%bool_decide_eq_true. by rewrite H.
Qed.

(** C3. The score [submitQuiz] records is the number of question indices
    whose recorded answer equals the question's [correctAnswer]; an index
    without a recorded answer is not among them, so the score never
    exceeds the number of answered indices.  Nothing but the score
    changes. *)
Theorem submitQuiz_score (st : App.State) :
  let questions := App.quizQuestions (App.content st) in
  let answers := App.quizAnswers (App.quizState st) in
  App.submitQuiz st = App.setQuizScore (Some (countCorrect questions answers)) st
  /\ App.quizScore (App.quizState (App.submitQuiz st))
     = Some (countCorrect questions answers)
  /\ (forall i, answers !! i = None -> correctAt questions answers i = false)
  /\ countCorrect questions answers <= countAnswered questions answers.
Proof.
  intros questions answers. unfold App.submitQuiz.
  rewrite forEach_counts. fold questions answers.
  split_and!; [done | done | |].
  - intros i Hi. destruct (correctAt questions answers i) eqn:E; [|done].
    apply correctAt_answered in E. rewrite Hi in E. by destruct E.
  - apply filter_length_mono. intros i. apply correctAt_answered.
Qed.

End QuizProofs.

(** ** Proofs: the content service *)

Section ServiceProofs.

Import geminiService.

Lemma try_catch_ext {A : Type} (body : outcome A) (h1 h2 : exn -> outcome A) :
  (forall e, h1 e = h2 e) -> try_catch body h1 = try_catch body h2.
Proof. intros H. destruct body; simpl; auto. Qed.

Lemma fmap_outcome_thrown {A B : Type} (f : A -> B) (m : outcome A) (e : exn) :
  fmap_outcome f m = Thrown e <-> m = Thrown e.
Proof. destruct m; simpl; split; congruence. Qed.

Lemma fmap_outcome_returned {A B : Type} (f : A -> B) (m : outcome A) (b : B) :
  fmap_outcome f m = Returned b <-> exists a, m = Returned a /\ b = f a.
Proof.
  destruct m as [a|e]; simpl; split.
  - intros [= <-]. by exists a.
  - intros (a' & Ha & ->). congruence.
  - done.
  - by intros (a' & [=] & _).
Qed.

(** What a structured operation makes of the reply to its request: the
    shared body of the operations that parse, with the error [handler]
    throws in place of the one caught. *)
Lemma parsed_or_handled (reply : outcome Response) (handler : exn -> exn) :
  let r :=
    try_catch
      (bind reply (fun response =>
         bind (JSON_parse (text response)) (fun parsed => Returned parsed)))
      (fun error => Thrown (handler error)) in
  (forall v, r = Returned v <->
     exists resp, reply = Returned resp /\ JSON.parse (text resp) = Some v)
  /\ (forall raw, reply = Thrown raw -> r = Thrown (handler raw))
  /\ (forall resp, reply = Returned resp -> JSON.parse (text resp) = None ->
        exists raw, instanceofSyntaxError raw = true /\ r = Thrown (handler raw))
  /\ (forall e, r = Thrown e -> exists raw, e = handler raw).
Proof.
  intros r. subst r. unfold try_catch, bind, JSON_parse.
  destruct reply as [resp|raw].
  - destruct (JSON.parse (text resp)) as [v|] eqn:E.
    + split_and!.
      * intros v'. split.
        -- intros [= <-]. by exists resp.
        -- intros (resp' & [= <-] & E'). congruence.
      * intros raw [=].
      * intros resp' [= <-] E'. congruence.
      * intros e [=].
    + split_and!.
      * intros v. split; [done |]. intros (resp' & [= <-] & E'). congruence.
      * intros raw [=].
      * intros resp' _ _. eexists. split; [| reflexivity]. done.
      * intros e [= <-]. by eexists.
  - split_and!.
    + intros v. split; [done |]. by intros (resp' & [=] & _).
    + by intros raw' [= <-].
    + intros resp [=].
    + intros e [= <-]. by eexists.
Qed.

(** The same for the operations that return the text of the response. *)
Lemma text_or_handled (reply : outcome Response) (post : string -> string) (msg : string) :
  let r :=
    try_catch (bind reply (fun response => Returned (post (text response))))
              (fun error => Thrown (Error msg)) in
  (forall s, r = Returned s <-> exists resp, reply = Returned resp /\ s = post (text resp))
  /\ (forall raw, reply = Thrown raw -> r = Thrown (Error msg))
  /\ (forall e, r = Thrown e -> e = Error msg).
Proof.
  intros r. subst r. unfold try_catch, bind.
  destruct reply as [resp|raw]; split_and!.
  - intros s. split.
    + intros [= <-]. by exists resp.
    + intros (resp' & Hr & Hs). injection Hr as <-. by subst s.
  - intros raw [=].
  - intros e [=].
  - intros s. split; [done |]. by intros (resp' & [=] & _).
  - done.
  - by intros e [= <-].
Qed.

(** [generateQuiz] with the two branches of its handler as one message. *)
Lemma generateQuiz_handler (txt : string) (questionCount : nat) :
  exists req, forall generateContent,
    generateQuiz generateContent txt questionCount
    = try_catch
        (bind (generateContent req) (fun response =>
           bind (JSON_parse (text response)) (fun parsed => Returned parsed)))
        (fun error => Thrown (Error (handlerMessage (GenerateQuiz txt questionCount) error))).
Proof.
  eexists. intros gc. unfold generateQuiz. cbv zeta.
  apply try_catch_ext. intros e. unfold handlerMessage. simpl.
  by destruct (instanceofSyntaxError e).
Qed.

(** C1, as the code has it.  [generateClozeTest] and
    [generateClozeTestFromText] return the value [JSON.parse] gives for the
    text of the response, whatever its blank markers and answers are: the
    value is returned exactly when the call succeeded and the text parsed;
    a rejected call and a text that does not parse end in the error of the
    operation. *)
Theorem generateCloze_returns_parsed_response
    (words : list FavoriteWord) (txt : string) (level : CEFRLevel) :
  exists fromWords fromText : Request, forall generateContent,
    (forall v, generateClozeTest generateContent words level = Returned v <->
       exists resp, generateContent fromWords = Returned resp
                    /\ JSON.parse (text resp) = Some v)
    /\ (forall v, generateClozeTestFromText generateContent txt level = Returned v <->
          exists resp, generateContent fromText = Returned resp
                       /\ JSON.parse (text resp) = Some v)
    /\ (forall e, generateClozeTest generateContent words level = Thrown e ->
          e = Error (failureMessage (GenerateClozeTest words level))
          /\ ((exists raw, generateContent fromWords = Thrown raw)
              \/ exists resp, generateContent fromWords = Returned resp
                              /\ JSON.parse (text resp) = None))
    /\ (forall e, generateClozeTestFromText generateContent txt level = Thrown e ->
          e = Error (failureMessage (GenerateClozeTestFromText txt level))
          /\ ((exists raw, generateContent fromText = Thrown raw)
              \/ exists resp, generateContent fromText = Returned resp
                              /\ JSON.parse (text resp) = None)).
Proof.
  do 2 eexists. intros gc.
  assert (Hfail : forall (reply : outcome Response) msg e,
    try_catch
      (bind reply (fun response =>
         bind (JSON_parse (text response)) (fun parsed => Returned parsed)))
      (fun error => Thrown (Error msg)) = Thrown e ->
    e = Error msg
    /\ ((exists raw, reply = Thrown raw)
        \/ exists resp, reply = Returned resp /\ JSON.parse (text resp) = None)).
  { intros reply msg e. unfold try_catch, bind, JSON_parse.
    destruct reply as [resp|raw]; [|intros [= <-]; eauto].
    destruct (JSON.parse (text resp)) eqn:E; [done |]. intros [= <-]. eauto. }
  split_and!.
  - unfold generateClozeTest. cbv zeta.
    apply (parsed_or_handled (gc _) (fun _ => Error _)).
  - unfold generateClozeTestFromText. cbv zeta.
    apply (parsed_or_handled (gc _) (fun _ => Error _)).
  - unfold generateClozeTest. cbv zeta. apply Hfail.
  - unfold generateClozeTestFromText. cbv zeta. apply Hfail.
Qed.

(** C1, the claim refuted: a response with three blank markers and two
    answers is returned by both operations. *)
Lemma generateCloze_returns_mismatched_blanks :
  exists v,
    generateClozeTest (answering threeBlanksTwoAnswers)
      [FavoriteWord.mk "lesen" "okumak"; FavoriteWord.mk "der Roman" "roman"] A2
    = Returned v
    /\ generateClozeTestFromText (answering threeBlanksTwoAnswers)
         "Ich lese gern Romane und Zeitungen." A2
       = Returned v
    /\ clozeBlanks v = Some 3
    /\ clozeAnswers v = Some 2
    /\ clozeConsistent v = false.
Proof. eexists. split_and!; vm_compute; reflexivity. Qed.

(** C2, as the code has it.  [generateQuiz] returns the value [JSON.parse]
    gives for the text of the response, with no look at the options or at
    the correct answer of a question: the value is returned exactly when
    the call succeeded and the text parsed, and a failure is a rejected
    call or a text that does not parse, reported with one of the two
    messages of the operation. *)
Theorem generateQuiz_returns_parsed_response (txt : string) (questionCount : nat) :
  exists req : Request, forall generateContent,
    (forall v, generateQuiz generateContent txt questionCount = Returned v <->
       exists resp, generateContent req = Returned resp
                    /\ JSON.parse (text resp) = Some v)
    /\ (forall e, generateQuiz generateContent txt questionCount = Thrown e ->
          (e = Error invalidResponseMessage
           \/ e = Error (failureMessage (GenerateQuiz txt questionCount)))
          /\ ((exists raw, generateContent req = Thrown raw)
              \/ exists resp, generateContent req = Returned resp
                              /\ JSON.parse (text resp) = None)).
Proof.
  destruct (generateQuiz_handler txt questionCount) as [req Hq].
  exists req. intros gc. rewrite Hq. split.
  - apply (parsed_or_handled (gc req)).
  - intros e He. split.
    + apply (parsed_or_handled (gc req)) in He as [raw ->].
      unfold handlerMessage. simpl. destruct (instanceofSyntaxError raw); auto.
    + revert He. unfold try_catch, bind, JSON_parse.
      destruct (gc req) as [resp|raw]; [|eauto].
      destruct (JSON.parse (text resp)) eqn:E; [done | eauto].
Qed.

(** C2, the claim refuted: a question with three options, two of them
    equal and none of them the correct answer, is returned. *)
Lemma generateQuiz_returns_malformed_question :
  exists q,
    generateQuiz (answering threeOptionsQuiz) "Anna liest einen Brief." 5
    = Returned (JSON.Arr [q])
    /\ JSON.get "options" q
       = Some (JSON.Arr [JSON.Str "ein Buch"; JSON.Str "ein Buch"; JSON.Str "eine Zeitung"])
    /\ JSON.get "correctAnswer" q = Some (JSON.Str "einen Brief")
    /\ questionWellFormed q = false
    /\ quizWellFormed (JSON.Arr [q]) = false.
Proof. eexists. split_and!; vm_compute; reflexivity. Qed.

(** C5, as the code has it.  [translateTextSentenceBySentence] returns the
    value [JSON.parse] gives for the text of the response, array or not,
    whatever the fields of its entries: the value is returned exactly when
    the call succeeded and the text parsed; a rejected call and a text
    that does not parse end in the error of the operation. *)
Theorem translateSentences_returns_parsed_response (txt : string) :
  exists req : Request, forall generateContent,
    (forall v, translateTextSentenceBySentence generateContent txt = Returned v <->
       exists resp, generateContent req = Returned resp
                    /\ JSON.parse (text resp) = Some v)
    /\ (forall e, translateTextSentenceBySentence generateContent txt = Thrown e ->
          e = Error (failureMessage (TranslateTextSentenceBySentence txt))
          /\ ((exists raw, generateContent req = Thrown raw)
              \/ exists resp, generateContent req = Returned resp
                              /\ JSON.parse (text resp) = None)).
Proof.
  eexists. intros gc. unfold translateTextSentenceBySentence. cbv zeta. split.
  - apply (parsed_or_handled (gc _) (fun _ => Error _)).
  - intros e. unfold try_catch, bind, JSON_parse.
    destruct (gc _) as [resp|raw]; [|intros [= <-]; eauto].
    destruct (JSON.parse (text resp)) eqn:E; [done |]. intros [= <-]. eauto.
Qed.

(** C5, the claim refuted: an entry without its [turkish] field is
    returned, and so is a response that is an object and not an array. *)
Lemma translateSentences_returns_unchecked_shape :
  (exists v,
     translateTextSentenceBySentence (answering pairWithoutTurkish) "Guten Morgen."
     = Returned v
     /\ v = JSON.Arr [JSON.Obj [("german", JSON.Str "Guten Morgen.")]]
     /\ pairsWellFormed v = false)
  /\ (exists v,
        translateTextSentenceBySentence (answering objectInsteadOfArray) "Guten Morgen."
        = Returned v
        /\ v = JSON.Obj [("german", JSON.Str "Guten Morgen."); ("turkish", JSON.Str "Gunaydin.")]
        /\ pairsWellFormed v = false).
Proof. split; eexists; split_and!; vm_compute; reflexivity. Qed.

(** Names the request an unfolded operation passes to the model [gc] as the
    request the statement speaks of, and takes the cases of the reply. *)
Ltac reply_cases gc :=
  lazymatch goal with
  | |- context [gc (mkRequest ?a ?b ?c)] =>
      match goal with
      | |- context [gc ?e] => is_evar e; unify e (mkRequest a b c)
      end;
      destruct (gc (mkRequest a b c)) as [resp|raw] eqn:Hreply
  end.

Ltac text_operation :=
  eexists; intros gc;
  unfold invoke, fmap_outcome, generateText, generateRandomTheme, translateText,
    translateWord, try_catch, bind;
  cbv zeta; reply_cases gc;
  (split_and!;
   [ intros e He; simplify_eq; by exists (Error "")
   | intros raw' ?; by simplify_eq
   | done
   | intros _ resp' ?; simplify_eq; by eexists ]).

Ltac structured_operation :=
  eexists; intros gc;
  unfold invoke, fmap_outcome, translateTextSentenceBySentence, explainAndExampleWord,
    generateClozeTest, generateDistractors, generateClozeTestFromText, try_catch, bind,
    JSON_parse;
  cbv zeta; reply_cases gc;
  [ lazymatch goal with
    | H : gc _ = Returned ?r |- _ => destruct (JSON.parse (text r)) eqn:Hparse
    end |];
  (split_and!;
   [ intros e He; simplify_eq; by exists (Error "")
   | intros raw' ?; by simplify_eq
   | intros _ resp' ? ?; by simplify_eq
   | done ]).

(** C4, as the code has it.  Whatever the model does, an operation that
    fails throws [new Error] with a message of its own: the message does
    not depend on the error caught, except in [generateQuiz], where a
    caught [SyntaxError] gives the message about an invalid response.  A
    rejected call ends in that error; so does, for an operation that
    parses, a response whose text is not JSON, and an operation that does
    not parse returns on every response.  For the operations other than
    [generateQuiz] the error of a response that is not JSON is thus the
    error of a rejected call. *)
Theorem operations_throw_domain_errors (op : operation) :
  exists req : Request, forall generateContent,
    (forall e, invoke generateContent op = Thrown e ->
       exists raw, e = Error (handlerMessage op raw))
    /\ (forall raw, generateContent req = Thrown raw ->
          invoke generateContent op = Thrown (Error (handlerMessage op raw)))
    /\ (parsesJson op = true -> forall resp,
          generateContent req = Returned resp -> JSON.parse (text resp) = None ->
          invoke generateContent op
          = Thrown (Error (if isGenerateQuiz op then invalidResponseMessage
                           else failureMessage op)))
    /\ (parsesJson op = false -> forall resp,
          generateContent req = Returned resp ->
          exists s, invoke generateContent op = Returned (PlainText s)).
Proof.
  destruct op; try text_operation; try structured_operation.
  destruct (generateQuiz_handler txt questionCount) as [req Hq].
  exists req. intros gc. unfold invoke. rewrite Hq.
  unfold fmap_outcome, try_catch, bind, JSON_parse.
  destruct (gc req) as [resp|raw] eqn:Hreply;
    [destruct (JSON.parse (text resp)) eqn:Hparse |];
    (split_and!;
     [ intros e He; simplify_eq; by eexists
     | intros raw' ?; by simplify_eq
     | intros _ resp' ? ?; by simplify_eq
     | done ]).
Qed.

(** The messages of the handlers: one per operation, and for [generateQuiz]
    a second one, different from its first, for a caught [SyntaxError]. *)
Lemma handlerMessage_cases (op : operation) (raw : exn) :
  handlerMessage op raw
  = (if isGenerateQuiz op && instanceofSyntaxError raw then invalidResponseMessage
     else failureMessage op)
  /\ invalidResponseMessage <> failureMessage op.
Proof. split; [done |]. by destruct op. Qed.

(** C4, the claim refuted: in each operation that parses, other than
    [generateQuiz], a response that is not JSON gives the very error of a
    rejected call. *)
Lemma malformed_response_gives_transport_error :
  JSON.parse notJson = None
  /\ Forall (fun op =>
       parsesJson op = true
       /\ invoke (answering notJson) op = Thrown (Error (failureMessage op))
       /\ invoke (rejecting serviceUnavailable) op = Thrown (Error (failureMessage op)))
     [ TranslateTextSentenceBySentence "Guten Morgen.";
       ExplainAndExampleWord "der Roman" B1;
       GenerateClozeTest [FavoriteWord.mk "lesen" "okumak"] A2;
       GenerateDistractors "lese" "Ich ___ gern.";
       GenerateClozeTestFromText "Ich lese gern Romane." A2 ].
Proof. split; [by vm_compute |]. repeat constructor; by vm_compute. Qed.

End ServiceProofs.

(** ** Proofs: favorite lists *)

Section FavoriteProofs.

Variable toLowerCase : string -> string.

#[local] Abbreviation sameTerm := (App.sameTerm toLowerCase).
#[local] Abbreviation addWordTo := (App.addWordTo toLowerCase).
#[local] Abbreviation removeWordFrom := (App.removeWordFrom toLowerCase).
#[local] Abbreviation handleAddWordToList := (App.handleAddWordToList toLowerCase).
#[local] Abbreviation handleRemoveWordFromList := (App.handleRemoveWordFromList toLowerCase).

Lemma sameTerm_term (term term' : string) (w : FavoriteWord) :
  toLowerCase term' = toLowerCase term -> sameTerm term' w <-> sameTerm term w.
Proof. unfold App.sameTerm. by intros ->. Qed.

Lemma addWordTo_present (word : FavoriteWord) (listId : string) (list : FavoriteList) :
  Exists (sameTerm (FavoriteWord.german word)) (FavoriteList.words list) ->
  addWordTo word listId list = list.
Proof.
  intros Hin. unfold App.addWordTo.
  case_bool_decide; [|done]. by rewrite bool_decide_eq_true_2.
Qed.

Lemma addWordTo_has_term (word : FavoriteWord) (listId : string) (list : FavoriteList) :
  FavoriteList.id list = listId ->
  Exists (sameTerm (FavoriteWord.german word))
         (FavoriteList.words (addWordTo word listId list)).
Proof.
  intros Hid. unfold App.addWordTo. rewrite bool_decide_eq_true_2 by done.
  case_bool_decide as Hin; [done |]. simpl.
  apply Exists_app. right. by constructor.
Qed.

Lemma addWordTo_other (word : FavoriteWord) (listId : string) (list : FavoriteList) :
  FavoriteList.id list <> listId -> addWordTo word listId list = list.
Proof. intros Hid. unfold App.addWordTo. by rewrite bool_decide_eq_false_2. Qed.

Lemma addWordTo_id (word : FavoriteWord) (listId : string) (list : FavoriteList) :
  FavoriteList.id (addWordTo word listId list) = FavoriteList.id list.
Proof. unfold App.addWordTo. by repeat case_bool_decide. Qed.

Lemma addWordTo_again (word word' : FavoriteWord) (listId : string) (list : FavoriteList) :
  toLowerCase (FavoriteWord.german word') = toLowerCase (FavoriteWord.german word) ->
  addWordTo word' listId (addWordTo word listId list) = addWordTo word listId list.
Proof.
  intros Hsame.
  destruct (decide (FavoriteList.id list = listId)) as [Hid|Hid].
  - apply addWordTo_present.
    eapply Exists_impl; [by apply (addWordTo_has_term word) |].
    intros w Hw. unfold App.sameTerm in *. congruence.
  - rewrite (addWordTo_other word) by done. by apply addWordTo_other.
Qed.

(** C6. Adding a word to a list that already holds a word with the same
    term, letter case apart, leaves that list as it is; adding a term a
    second time, in any letter case, leaves the whole state as the first
    addition made it, and with it the size of every list. *)
Theorem handleAddWordToList_idempotent (word : FavoriteWord) (listId : string)
    (st : App.State) :
  (forall i list,
     App.favoriteLists (App.favs st) !! i = Some list ->
     Exists (sameTerm (FavoriteWord.german word)) (FavoriteList.words list) ->
     App.favoriteLists (App.favs (handleAddWordToList word listId st)) !! i = Some list)
  /\ (forall word',
        toLowerCase (FavoriteWord.german word') = toLowerCase (FavoriteWord.german word) ->
        handleAddWordToList word' listId (handleAddWordToList word listId st)
        = handleAddWordToList word listId st)
  /\ map (fun list => length (FavoriteList.words list))
       (App.favoriteLists
          (App.favs (handleAddWordToList word listId (handleAddWordToList word listId st))))
     = map (fun list => length (FavoriteList.words list))
         (App.favoriteLists (App.favs (handleAddWordToList word listId st))).
Proof.
  assert (Hagain : forall word',
    toLowerCase (FavoriteWord.german word') = toLowerCase (FavoriteWord.german word) ->
    handleAddWordToList word' listId (handleAddWordToList word listId st)
    = handleAddWordToList word listId st).
  { intros word' Hsame. destruct st as [v c ct [lists texts modal] q t cl].
    unfold App.handleAddWordToList, App.setFavoriteLists, App.setAddToListModal,
      App.withFavs. simpl. do 2 f_equal.
    rewrite <- list_fmap_compose. apply list_fmap_ext.
    intros i list _. simpl. by apply addWordTo_again. }
  split_and!.
  - intros i list Hi Hin. simpl.
    rewrite list_lookup_fmap, Hi. simpl. f_equal. by apply addWordTo_present.
  - exact Hagain.
  - by rewrite Hagain.
Qed.

Lemma filter_filter_same {A : Type} (P : A -> Prop) `{forall x, Decision (P x)}
    (l : list A) :
  filter P (filter P l) = filter P l.
Proof.
  induction l as [|x l IH]; [done |].
  rewrite filter_cons. case_decide; [|done].
  rewrite filter_cons_True by done. by rewrite IH.
Qed.

(** C10. Removing a term from the list [listId] leaves in that list no
    word with this term, letter case apart, and keeps the other words of
    the list, each as often as before and in their order; the name and
    the identifier of the list, every other list and the order of the
    lists are as before. *)
Theorem handleRemoveWordFromList_removes_matches (germanWord listId : string)
    (st : App.State) :
  let lists := App.favoriteLists (App.favs st) in
  let lists' := App.favoriteLists (App.favs (handleRemoveWordFromList germanWord listId st)) in
  length lists' = length lists
  /\ forall i list, lists !! i = Some list ->
       exists list', lists' !! i = Some list'
         /\ FavoriteList.id list' = FavoriteList.id list
         /\ FavoriteList.name list' = FavoriteList.name list
         /\ (FavoriteList.id list = listId ->
               Forall (fun w => toLowerCase (FavoriteWord.german w) <> toLowerCase germanWord)
                      (FavoriteList.words list')
               /\ filter (fun w => toLowerCase (FavoriteWord.german w) <> toLowerCase germanWord)
                         (FavoriteList.words list')
                  = filter (fun w => toLowerCase (FavoriteWord.german w) <> toLowerCase germanWord)
                           (FavoriteList.words list)
               /\ FavoriteList.words list' `sublist_of` FavoriteList.words list)
         /\ (FavoriteList.id list <> listId -> list' = list).
Proof.
  intros lists lists'. subst lists lists'. simpl. split.
  - by rewrite length_fmap.
  - intros i list Hi. exists (removeWordFrom germanWord listId list).
    rewrite list_lookup_fmap, Hi. unfold App.removeWordFrom.
    split_and!; [done | by case_bool_decide | by case_bool_decide | |].
    + intros Hid. rewrite bool_decide_eq_true_2 by done. simpl. split_and!.
      * apply Forall_forall. intros w Hw. by apply list_elem_of_filter in Hw as [? _].
      * apply (filter_filter_same (fun w => ~ sameTerm germanWord w)).
      * apply sublist_filter.
    + intros Hid. by rewrite bool_decide_eq_false_2.
Qed.

End FavoriteProofs.

(** ** Proofs: the archive of saved texts *)

Section ArchiveProofs.

Lemma isTextSaved_true (st : App.State) :
  App.isTextSaved st = true <->
  exists t, t ∈ App.savedTexts (App.favs st)
            /\ App.SavedText.text t = App.generatedText (App.content st).
Proof.
  unfold App.isTextSaved. rewrite bool_decide_eq_true, Exists_exists. naive_solver.
Qed.

Lemma entriesWithText_0 (body : string) (texts : list App.SavedText) :
  entriesWithText body texts = 0 <->
  forall t, t ∈ texts -> App.SavedText.text t <> body.
Proof.
  unfold entriesWithText. split.
  - intros Hlen%nil_length_inv t Ht Heq.
    by apply (filter_nil_not_elem_of _ _ t Hlen).
  - intros Hno. induction texts as [|t texts IH]; [done |].
    rewrite filter_cons_False; [|apply Hno; left].
    apply IH. intros t' Ht'. apply Hno. by right.
Qed.

Lemma handleSaveText_saved (st : App.State) :
  App.isTextSaved st = true -> App.handleSaveText st = st.
Proof. intros H. unfold App.handleSaveText. rewrite H. by rewrite orb_true_r. Qed.

Lemma handleSaveText_fresh (st : App.State) :
  App.generatedText (App.content st) <> "" -> App.isTextSaved st = false ->
  App.handleSaveText st
  = App.setSavedTexts
      (fun prev =>
         App.SavedText.mk (App.theme (App.core st)) (App.generatedText (App.content st))
           (App.level (App.core st)) (App.translatedSentences (App.content st))
           (App.quizQuestions (App.content st)) :: prev) st.
Proof.
  intros Hne Hns. unfold App.handleSaveText.
  by rewrite Hns, bool_decide_eq_false_2.
Qed.

Lemma handleSaveText_twice (st : App.State) :
  App.handleSaveText (App.handleSaveText st) = App.handleSaveText st.
Proof.
  destruct (decide (App.generatedText (App.content st) = "")) as [He|Hne].
  { unfold App.handleSaveText at 2. rewrite bool_decide_eq_true_2 by done. simpl.
    unfold App.handleSaveText. by rewrite bool_decide_eq_true_2. }
  destruct (App.isTextSaved st) eqn:Hs.
  { rewrite (handleSaveText_saved st Hs). by apply handleSaveText_saved. }
  rewrite (handleSaveText_fresh st) by done.
  apply handleSaveText_saved, isTextSaved_true. simpl.
  eexists. split; [left |]. done.
Qed.

(** C7. Saving is without effect when the archive holds an entry whose
    body text is, as a string, the text on screen; saving twice is saving
    once, and for a text on screen that the archive did not hold the two
    saves leave exactly one entry with that body, at the head of the
    archive.  Deleting removes the entries whose body text is that of the
    entry given, and keeps the others in their order. *)
Theorem handleSaveText_idempotent (st : App.State) :
  let body := App.generatedText (App.content st) in
  let archive := App.savedTexts (App.favs st) in
  let twice := App.savedTexts (App.favs (App.handleSaveText (App.handleSaveText st))) in
  ((exists t, t ∈ archive /\ App.SavedText.text t = body) -> App.handleSaveText st = st)
  /\ App.handleSaveText (App.handleSaveText st) = App.handleSaveText st
  /\ (body <> "" -> entriesWithText body archive = 0 ->
        entriesWithText body twice = 1
        /\ exists entry, App.SavedText.text entry = body /\ twice = entry :: archive)
  /\ (forall textToDelete,
        let kept := App.savedTexts (App.favs (App.handleDeleteText textToDelete st)) in
        kept = filter (fun t => App.SavedText.text t <> App.SavedText.text textToDelete) archive
        /\ kept `sublist_of` archive
        /\ entriesWithText (App.SavedText.text textToDelete) kept = 0
        /\ (forall t, t ∈ kept <->
              t ∈ archive /\ App.SavedText.text t <> App.SavedText.text textToDelete)).
Proof.
  intros body archive twice. split_and!.
  - intros H. by apply handleSaveText_saved, isTextSaved_true.
  - apply handleSaveText_twice.
  - intros Hne Hno. subst twice. rewrite handleSaveText_twice.
    assert (Hns : App.isTextSaved st = false).
    { destruct (App.isTextSaved st) eqn:Hs; [|done].
      apply isTextSaved_true in Hs as (t & Ht & Heq).
      by destruct (proj1 (entriesWithText_0 body archive) Hno t Ht). }
    rewrite handleSaveText_fresh by done. simpl. split.
    + unfold entriesWithText. rewrite filter_cons_True by done. simpl.
      f_equal. exact Hno.
    + eexists. split; [| reflexivity]. done.
  - intros textToDelete kept. subst kept. simpl. split_and!.
    + done.
    + apply sublist_filter.
    + apply entriesWithText_0. intros t Ht.
      by apply list_elem_of_filter in Ht as [? _].
    + intros t. rewrite list_elem_of_filter. tauto.
Qed.

Lemma string_app_assoc (s1 s2 s3 : string) :
  (s1 +:+ s2) +:+ s3 = s1 +:+ (s2 +:+ s3).
Proof.
  induction s1 as [|c s1 IH]; [done |].
  change (String c ((s1 +:+ s2) +:+ s3) = String c (s1 +:+ (s2 +:+ s3))).
  by rewrite IH.
Qed.

Lemma join_cons (sep p : string) (rest : list string) :
  join sep (p :: rest)
  = p +:+ foldr String.append EmptyString (map (fun q => sep +:+ q) rest).
Proof.
  revert p. induction rest as [|q rest IH]; intros p.
  - simpl. induction p as [|c p IHp]; [done |].
    change (String c p = String c (p +:+ "")). by rewrite <- IHp.
  - change (join sep (p :: q :: rest)) with (p +:+ sep +:+ join sep (q :: rest)).
    rewrite IH. simpl. by rewrite string_app_assoc.
Qed.

(** C9, as the code has it.  With an empty archive no file is made.
    Otherwise the file is the block of the first entry followed, for each
    further entry in archive order, by a line break and the block of that
    entry; a block is the header line, an empty line, the body text, a line
    break and an empty line. *)
Theorem handleExportTexts_joins_blocks (st : App.State) :
  match App.savedTexts (App.favs st) with
  | [] => App.handleExportTexts st = None
  | t :: rest =>
      exists file,
        App.handleExportTexts st = Some file
        /\ App.download file = "deutsch-meister-favoriler.txt"
        /\ App.fileContent file
           = App.exportBlock t
             +:+ foldr String.append EmptyString
                   (map (fun t' => App.newline +:+ App.exportBlock t') rest)
  end
  /\ forall t,
       App.exportBlock t
       = headerLine t +:+ App.newline +:+ App.SavedText.text t +:+ App.newline
         +:+ App.newline.
Proof.
  split.
  - unfold App.handleExportTexts.
    destruct (App.savedTexts (App.favs st)) as [|t rest]; [done |].
    rewrite bool_decide_eq_false_2 by done.
    eexists. split_and!; [done | done |]. cbn [App.fileContent].
    change (map App.exportBlock (t :: rest))
      with (App.exportBlock t :: map App.exportBlock rest).
    by rewrite join_cons, map_map.
  - intros t. unfold App.exportBlock, headerLine.
    by rewrite !string_app_assoc.
Qed.

(** C9, the claim refuted: for an archive of two entries the file is one
    line break longer than the concatenation of the two blocks. *)
Lemma export_is_not_concatenation :
  exists file,
    App.handleExportTexts withArchive = Some file
    /\ App.fileContent file <> concatenatedBlocks (App.savedTexts (App.favs withArchive))
    /\ App.fileContent file
       = App.exportBlock savedBerlin +:+ App.newline +:+ App.exportBlock savedWien
    /\ concatenatedBlocks (App.savedTexts (App.favs withArchive))
       = App.exportBlock savedBerlin +:+ App.exportBlock savedWien.
Proof.
  eexists. split_and!; [reflexivity | | |]; vm_compute; congruence.
Qed.

End ArchiveProofs.

(** ** Proofs: the generate transition *)

Section GenerateProofs.

Variable generateText : CEFRLevel -> string -> nat -> string -> outcome string.
Variable translateTextSentenceBySentence : string -> outcome (list TranslationPair).
Variable generateQuiz : string -> nat -> outcome (list QuizQuestion).

(** What the statements before the calls clear, and what they leave. *)
Lemma handleGenerate_reset_effect (levelToUse : CEFRLevel) (themeToUse moodToUse : string)
    (st : App.State) :
  let st' := App.handleGenerate_reset levelToUse themeToUse moodToUse st in
  App.quizState st' = App.mkQuiz 0 ∅ None
  /\ App.cloze st' = App.mkCloze false None
  /\ App.content st' = App.mkContent "" [] []
  /\ App.tts st' = App.tts st
  /\ App.favs st' = App.favs st.
Proof. by destruct st. Qed.

(** The speech state is the same after the whole transition as well. *)
Lemma handleGenerate_tts (levelToUse : CEFRLevel) (themeToUse moodToUse : string)
    (st : App.State) :
  App.tts (App.handleGenerate generateText translateTextSentenceBySentence generateQuiz
             levelToUse themeToUse moodToUse st)
  = App.tts st.
Proof.
  unfold App.handleGenerate, App.handleGenerate_calls.
  destruct (generateText _ _ _ _) as [txt|e]; [|done].
  destruct (translateTextSentenceBySentence txt) as [sentences|e]; [|done].
  by destruct (generateQuiz txt 5) as [quiz|e].
Qed.

End GenerateProofs.

(** C8, on the state [readingAloud]: the statements of [handleGenerate] before
    its calls clear the quiz answers, the score and the cloze data, and leave
    the speech position at the third sentence with the speaking flag set;
    [handleStartNewStory] clears both. *)
Theorem handleGenerate_keeps_speech_position :
  let st' := App.handleGenerate_reset B1 "Eine Reise nach Wien" "lustig" readingAloud in
  App.quizAnswers (App.quizState st') = ∅
  /\ App.quizScore (App.quizState st') = None
  /\ App.textClozeData (App.cloze st') = None
  /\ App.isSpeaking (App.tts st') = true
  /\ App.speakingSentenceIndex (App.tts st') = Some 2
  /\ App.tts (App.handleStartNewStory "neutral" readingAloud) = App.mkTts false None.
Proof. by split_and!. Qed.


(** ** Runs of the handlers on the sample states *)

Example submitQuiz_readingAloud :
  App.quizScore (App.quizState (App.submitQuiz readingAloud)) = Some 1
  /\ countAnswered berlinQuiz (App.quizAnswers (App.quizState readingAloud)) = 2.
Proof. by vm_compute. Qed.

Example handleAnswer_then_submit :
  App.quizScore
    (App.quizState (App.submitQuiz (App.handleAnswer 2 "um 7" (App.handleAnswer 1 "Kaffee" readingAloud))))
  = Some 3.
Proof. by vm_compute. Qed.

Example add_Lesen_in_other_case :
  App.favoriteLists
    (App.favs (App.handleAddWordToList asciiLower (FavoriteWord.mk "lesen" "okumak") "7f3c" withLists))
  = [verbs; nouns].
Proof. by vm_compute. Qed.

Example add_new_word :
  App.favoriteLists
    (App.favs (App.handleAddWordToList asciiLower (FavoriteWord.mk "Trinken" "içmek") "a91e" withLists))
  = [verbs; FavoriteList.mk "a91e" "Nomen"
              [FavoriteWord.mk "lesen" "okuma"; FavoriteWord.mk "Trinken" "içmek"]].
Proof. by vm_compute. Qed.

Example remove_lesen_from_verbs :
  App.favoriteLists (App.favs (App.handleRemoveWordFromList asciiLower "lesen" "7f3c" withLists))
  = [FavoriteList.mk "7f3c" "Verben" [FavoriteWord.mk "gehen" "gitmek"]; nouns].
Proof. by vm_compute. Qed.

Example save_twice_one_entry :
  App.savedTexts (App.favs (App.handleSaveText (App.handleSaveText readingAloud)))
  = [App.SavedText.mk "Ein Tag in Berlin"
       "Anna wohnt in Berlin. Sie trinkt Kaffee. Sie steht um 7 auf." A2 berlinPairs berlinQuiz].
Proof. by vm_compute. Qed.

Example delete_by_body :
  App.savedTexts
    (App.favs (App.handleDeleteText (App.SavedText.mk "" "Anna wohnt in Berlin." C1 [] []) withArchive))
  = [savedWien].
Proof. by vm_compute. Qed.

Example export_one_entry :
  App.fileContent <$> App.handleExportTexts
    (App.setSavedTexts (fun _ => [savedWien]) (initialState "neutral"))
  = Some ("--- Wien (B1) ---" +:+ App.newline +:+ App.newline +:+ "Wien ist schön."
          +:+ App.newline +:+ App.newline).
Proof. by vm_compute. Qed.

Example wellFormedCloze_returned :
  exists v,
    geminiService.generateClozeTestFromText (answering wellFormedCloze) "Ich lese gern Romane." A2
    = Returned v
    /\ clozeConsistent v = true.
Proof. eexists. split; by vm_compute. Qed.

Example quiz_syntax_error_message :
  geminiService.generateQuiz (answering notJson) "Anna wohnt in Berlin." 5
  = Thrown (Error invalidResponseMessage)
  /\ geminiService.generateQuiz (rejecting serviceUnavailable) "Anna wohnt in Berlin." 5
     = Thrown (Error "Test oluşturulurken bir hata oluştu.").
Proof. split; by vm_compute. Qed.


(** ** Proofs: splitting and joining *)

Section SplitProofs.

Lemma string_app_nil_r (s : string) : s +:+ "" = s.
Proof.
  induction s as [|c s IH]; [done |].
  change (String c (s +:+ "") = String c s). by rewrite IH.
Qed.

Lemma string_app_length (s t : string) :
  String.length (s +:+ t) = String.length s + String.length t.
Proof.
  induction s as [|c s IH]; [done |].
  change (S (String.length (s +:+ t)) = S (String.length s + String.length t)).
  by rewrite IH.
Qed.

Lemma startsWith_app (p s : string) :
  startsWith p s = true -> exists t, s = p +:+ t.
Proof.
  revert s. induction p as [|a p IH]; intros s H.
  - by exists s.
  - destruct s as [|b s]; [done |]. simpl in H.
    destruct (Ascii.eqb a b) eqn:E; [|done].
    apply Ascii.eqb_eq in E as ->. destruct (IH s H) as [t ->]. by exists t.
Qed.

Lemma split_go_skip (sep u t : string) :
  split_go sep (String.length u) (u +:+ t) = split_go sep 0 t.
Proof. induction u as [|c u IH]; [done |]. exact IH. Qed.

Lemma split_go_nonempty (sep : string) (skip : nat) (s : string) :
  split_go sep skip s <> [].
Proof.
  revert skip. induction s as [|c s IH]; intros skip; [done |].
  simpl. destruct skip as [|k]; [|apply IH].
  destruct (startsWith sep (String c s)); [done |].
  by destruct (split_go sep 0 s).
Qed.

Lemma join_cons_char (sep : string) (c : ascii) (p : string) (ps : list string) :
  join sep (String c p :: ps) = String c (join sep (p :: ps)).
Proof. by destruct ps. Qed.

Lemma join_cons_nonempty (sep p : string) (ps : list string) :
  ps <> [] -> join sep (p :: ps) = p +:+ sep +:+ join sep ps.
Proof. by destruct ps. Qed.

Lemma split_go_0_cons (sep : string) (c : ascii) (s : string) :
  split_go sep 0 (String c s)
  = if startsWith sep (String c s)
    then EmptyString :: split_go sep (String.length sep - 1) s
    else match split_go sep 0 s with
         | p :: ps => String c p :: ps
         | [] => [String c EmptyString]
         end.
Proof. done. Qed.

(** Joining the pieces of a text with the separator gives the text back. *)
Lemma join_split (sep s : string) :
  sep <> "" -> join sep (split sep s) = s.
Proof.
  intros Hsep. unfold split.
  remember (String.length s) as n eqn:Hn.
  revert s Hn. induction n as [n IH] using lt_wf_ind. intros s Hn.
  destruct s as [|c s]; [done |].
  rewrite split_go_0_cons.
  destruct (startsWith sep (String c s)) eqn:Hst.
  - destruct (startsWith_app _ _ Hst) as [t Ht].
    destruct sep as [|a sep']; [done |].
    change (String c s = String a (sep' +:+ t)) in Ht. injection Ht as -> ->.
    replace (String.length (String a sep') - 1) with (String.length sep')
      by (simpl; lia).
    rewrite split_go_skip.
    rewrite join_cons_nonempty by apply split_go_nonempty.
    rewrite (IH (String.length t)); [done | | done].
    subst n. simpl. rewrite string_app_length. lia.
  - pose proof (split_go_nonempty sep 0 s) as Hne.
    assert (IHs : join sep (split_go sep 0 s) = s).
    { apply (IH (String.length s)); [subst n; simpl; lia | done]. }
    destruct (split_go sep 0 s) as [|p ps]; [done |].
    rewrite join_cons_char. by f_equal.
Qed.

Lemma join_app (sep : string) (l1 l2 : list string) :
  l1 <> [] -> l2 <> [] ->
  join sep (l1 ++ l2) = join sep l1 +:+ sep +:+ join sep l2.
Proof.
  intros H1 H2. induction l1 as [|p l1 IH]; [done |].
  destruct l1 as [|q l1].
  - simpl app. by rewrite join_cons_nonempty.
  - change ((p :: q :: l1) ++ l2) with (p :: (q :: l1) ++ l2).
    rewrite join_cons_nonempty by done.
    rewrite IH by done.
    rewrite (join_cons_nonempty sep p (q :: l1)) by done.
    by rewrite !string_app_assoc.
Qed.

Lemma join_take_prefix (sep : string) (n : nat) (parts : list string) :
  exists rest, join sep parts = join sep (take n parts) +:+ rest.
Proof.
  destruct (decide (take n parts = [])) as [E|Hne1].
  { rewrite E. by exists (join sep parts). }
  destruct (decide (drop n parts = [])) as [E|Hne2].
  { exists "". rewrite string_app_nil_r.
    rewrite <- (take_drop n parts) at 1. by rewrite E, app_nil_r. }
  exists (sep +:+ join sep (drop n parts)).
  rewrite <- (take_drop n parts) at 1. by apply join_app.
Qed.

(** The pieces of a text split at a single character are one more than
    the occurrences of the character. *)
Lemma split_char_length (a : ascii) (s : string) :
  length (split (String a EmptyString) s) = S (countOf (String a EmptyString) s).
Proof.
  unfold split. induction s as [|c s IH]; [done |].
  rewrite split_go_0_cons.
  change (countOf (String a "") (String c s))
    with ((if startsWith (String a "") (String c s) then 1 else 0)
          + countOf (String a "") s).
  destruct (startsWith (String a "") (String c s)).
  - simpl. by rewrite IH.
  - pose proof (split_go_nonempty (String a "") 0 s) as Hne.
    destruct (split_go (String a "") 0 s) as [|p ps]; [done |].
    simpl in *. lia.
Qed.

Lemma startsWith_blankMarker (s : string) :
  startsWith blankMarker s = true ->
  exists t, s = String "["%char (String "_"%char (String "_"%char
                  (String "_"%char (String "]"%char t)))).
Proof.
  intros H. destruct (startsWith_app _ _ H) as [t ->]. by exists t.
Qed.

(** The parts of a cloze text are one more than its blank markers. *)
Lemma split_blankMarker_length (s : string) :
  length (split blankMarker s) = S (countOf blankMarker s).
Proof.
  unfold split.
  remember (String.length s) as n eqn:Hn.
  revert s Hn. induction n as [n IH] using lt_wf_ind. intros s Hn.
  destruct s as [|c s]; [done |].
  rewrite split_go_0_cons.
  change (countOf blankMarker (String c s))
    with ((if startsWith blankMarker (String c s) then 1 else 0)
          + countOf blankMarker s).
  destruct (startsWith blankMarker (String c s)) eqn:Hst.
  - destruct (startsWith_blankMarker _ Hst) as [t Ht]. injection Ht as -> ->.
    simpl. f_equal. apply (IH (String.length t)); [subst n; simpl; lia | done].
  - pose proof (split_go_nonempty blankMarker 0 s) as Hne.
    assert (IHs : length (split_go blankMarker 0 s) = S (countOf blankMarker s)).
    { apply (IH (String.length s)); [subst n; simpl; lia | done]. }
    destruct (split_go blankMarker 0 s) as [|p ps]; [done |].
    simpl in *. lia.
Qed.

(** The preview of a text: a beginning of the text followed by three dots,
    and the whole text followed by them when it has fewer than ten
    spaces. *)
Theorem getPreview_prefix (text : string) :
  (exists shown rest, text = shown +:+ rest /\ App.getPreview text = shown +:+ "...")
  /\ (countOf " " text < 10 -> App.getPreview text = text +:+ "...").
Proof.
  unfold App.getPreview. split.
  - destruct (join_take_prefix " " 10 (split " " text)) as [rest Hrest].
    rewrite join_split in Hrest by done. eauto.
  - intros Hfew. rewrite take_ge; [by rewrite join_split |].
    rewrite (split_char_length " "%char). lia.
Qed.

Lemma getPreview_prefix_witness :
  App.getPreview "Anna wohnt in Berlin." = "Anna wohnt in Berlin....".
Proof. apply (proj2 (getPreview_prefix "Anna wohnt in Berlin.")). vm_compute. lia. Defined.

End SplitProofs.

(** ** Proofs: the quiz and cloze views *)

Section ViewProofs.

Lemma inputs_of_fragments (n a : nat) :
  (fun i => if bool_decide (i < a) then Some i else None) <$> seq 0 n
  = (Some <$> seq 0 (n `min` a)) ++ replicate (n - a) None.
Proof.
  induction n as [|n IH]; [done |].
  rewrite seq_S, fmap_app, IH.
  change ((fun i => if bool_decide (i < a) then Some i else None) <$> [0 + n])
    with [if bool_decide (n < a) then Some n else None].
  destruct (decide (n < a)) as [Hlt|Hge].
  - rewrite bool_decide_eq_true_2 by done.
    replace (S n `min` a) with (S n) by lia.
    replace (n `min` a) with n by lia.
    replace (n - a) with 0 by lia. replace (S n - a) with 0 by lia.
    rewrite seq_S, fmap_app. by rewrite !app_nil_r.
  - rewrite bool_decide_eq_false_2 by done.
    replace (S n `min` a) with (n `min` a) by lia.
    replace (S n - a) with (S (n - a)) by lia.
    by rewrite replicate_S_end, app_assoc.
Qed.

(** The cloze views cut the text at its blank markers into one part more
    than the markers, and joining the parts with the marker gives the text
    back.  An input follows the part at index [i] when [i] is below the
    number of answers: inputs follow the first [min (blanks + 1) answers]
    parts, and with as many answers as blanks every blank has its input
    and nothing follows the last part. *)
Theorem clozeFragments_inputs (clozeData : App.ClozeData) :
  let blanks := countOf blankMarker (App.clozeText clozeData) in
  let n := length (App.answers clozeData) in
  length (App.clozeFragments clozeData) = S blanks
  /\ join "[___]" ((fun f => f.1) <$> App.clozeFragments clozeData) = App.clozeText clozeData
  /\ (fun f => f.2) <$> App.clozeFragments clozeData
     = (Some <$> seq 0 (S blanks `min` n)) ++ replicate (S blanks - n) None
  /\ (blanks = n ->
        (fun f => f.2) <$> App.clozeFragments clozeData = (Some <$> seq 0 n) ++ [None]).
Proof.
  intros blanks n. unfold App.clozeFragments, App.clozeParts.
  assert (Hlen : length (split "[___]" (App.clozeText clozeData)) = S blanks)
    by apply split_blankMarker_length.
  assert (Hsnd : (fun f : string * option nat => f.2)
                 <$> imap (fun i part => (part, if bool_decide (i < n) then Some i else None))
                          (split "[___]" (App.clozeText clozeData))
               = (Some <$> seq 0 (S blanks `min` n)) ++ replicate (S blanks - n) None).
  { rewrite fmap_imap.
    rewrite <- inputs_of_fragments, <- Hlen.
    apply (imap_seq_0 _ (fun i => if bool_decide (i < n) then Some i else None)). }
  split_and!.
  - by rewrite length_imap.
  - rewrite fmap_imap.
    rewrite (imap_ext _ (fun _ part => part)) by done.
    rewrite (imap_const id), list_fmap_id. by apply join_split.
  - exact Hsnd.
  - intros Heq. fold n. rewrite Hsnd.
    replace (S blanks `min` n) with n by lia.
    by replace (S blanks - n) with 1 by lia.
Qed.

Lemma clozeFragments_inputs_witness :
  (fun f => f.2)
    <$> App.clozeFragments (App.mkClozeData "Ich [___] gern [___]." ["lese"; "Romane"])
  = [Some 0; Some 1; None].
Proof.
  apply (proj2 (proj2 (proj2
    (clozeFragments_inputs (App.mkClozeData "Ich [___] gern [___]." ["lese"; "Romane"]))))).
  reflexivity.
Defined.

Lemma incorrectAnswers_snoc questions q answers :
  App.incorrectAnswers (questions ++ [q]) answers
  = App.incorrectAnswers questions answers
    ++ (if correctAt (questions ++ [q]) answers (length questions) then []
        else [(length questions, q)]).
Proof.
  unfold App.incorrectAnswers. rewrite imap_app, filter_app. f_equal.
  simpl. rewrite Nat.add_0_r, filter_cons, filter_nil, correctAt_last. simpl.
  case_bool_decide; case_decide; done.
Qed.

Lemma submitQuiz_quizScore (st : App.State) :
  App.quizScore (App.quizState (App.submitQuiz st))
  = Some (countCorrect (App.quizQuestions (App.content st))
            (App.quizAnswers (App.quizState st))).
Proof. unfold App.submitQuiz. by rewrite forEach_counts. Qed.

Lemma incorrect_plus_correct questions answers :
  length (App.incorrectAnswers questions answers) + countCorrect questions answers
  = length questions.
Proof.
  induction questions as [|q questions IH] using rev_ind; [done |].
  rewrite incorrectAnswers_snoc, countCorrect_snoc, !length_app.
  destruct (correctAt (questions ++ [q]) answers (length questions)); simpl; lia.
Qed.

(** The questions [QuizView] lists as answered wrongly are the ones
    [submitQuiz] did not count: the score and the length of the list add up
    to the number of questions, a question is on the list exactly when the
    answer recorded at its index is not its correct answer, and the list is
    empty exactly when the score is the number of questions. *)
Theorem incorrectAnswers_complement (st : App.State) :
  let questions := App.quizQuestions (App.content st) in
  let answers := App.quizAnswers (App.quizState st) in
  let wrong := App.incorrectAnswers questions answers in
  App.quizScore (App.quizState (App.submitQuiz st)) = Some (length questions - length wrong)
  /\ length wrong <= length questions
  /\ (forall i q, (i, q) ∈ wrong <->
        questions !! i = Some q /\ answers !! i <> Some (QuizQuestion.correctAnswer q))
  /\ (wrong = [] <->
        App.quizScore (App.quizState (App.submitQuiz st)) = Some (length questions)).
Proof.
  intros questions answers wrong.
  pose proof (incorrect_plus_correct questions answers) as Hsum. fold wrong in Hsum.
  pose proof (submitQuiz_quizScore st) as Hscore.
  fold questions answers in Hscore. rewrite Hscore.
  split_and!.
  - f_equal. lia.
  - lia.
  - intros i q. subst wrong. unfold App.incorrectAnswers.
    rewrite list_elem_of_filter. simpl. split.
    + intros [Hne Hin]. apply elem_of_lookup_imap in Hin as (j & x & [= -> ->] & Hj).
      done.
    + intros [Hi Hne]. split; [done |].
      by apply (elem_of_lookup_imap_2 (fun i q => (i, q))).
  - split.
    + intros Hnil. rewrite Hnil in Hsum. simpl in Hsum. by rewrite Hsum.
    + intros [= Heq]. apply nil_length_inv. lia.
Qed.

(** The submit button of [QuizView], when answers are recorded at indices of
    questions only: it is enabled exactly when every question has a recorded
    answer. *)
Theorem submitDisabled_all_answered (questions : list QuizQuestion)
    (answers : gmap nat string) :
  (forall i, is_Some (answers !! i) -> i < length questions) ->
  App.submitDisabled questions answers = false <->
  forall i, i < length questions -> is_Some (answers !! i).
Proof.
  intros Hrange. unfold App.submitDisabled.
  assert (Hsub : dom answers ⊆ (set_seq 0 (length questions) : gset nat)).
  { intros i Hi. apply elem_of_dom in Hi. apply elem_of_set_seq.
    specialize (Hrange i Hi). lia. }
  rewrite bool_decide_eq_false, <- size_dom. split.
  - intros Hsize%dec_stable i Hi.
    apply elem_of_dom.
    rewrite (set_subseteq_size_eq _ _ Hsub); [apply elem_of_set_seq; lia |].
    rewrite size_set_seq. lia.
  - intros Hall Hne. apply Hne.
    rewrite <- (size_set_seq (C:=gset nat) 0 (length questions)). f_equal.
    apply set_eq. intros i. rewrite elem_of_dom, elem_of_set_seq. split.
    + intros Hi. specialize (Hrange i Hi). lia.
    + intros [_ Hi]. apply Hall. lia.
Qed.

Lemma submitDisabled_all_answered_witness :
  App.submitDisabled berlinQuiz (<[0 := "Berlin"]> (<[1 := "Tee"]> ∅)) = false <->
  forall i, i < length berlinQuiz ->
    is_Some ((<[0 := "Berlin"]> (<[1 := "Tee"]> ∅) : gmap nat string) !! i).
Proof.
  apply (submitDisabled_all_answered berlinQuiz).
  intros i [a Ha].
  destruct i as [|[|i]]; simpl; [lia | lia |].
  rewrite !lookup_insert_ne, lookup_empty in Ha by lia. done.
Defined.

(** Recording an answer: the answer recorded at an index is the last one
    given for it, the answers at the other indices stay, the order of
    answering two different questions does not matter, and a quiz scored
    before keeps its score until it is reset. *)
Theorem handleAnswer_overwrites (i j : nat) (a b : string) (st : App.State) :
  App.quizAnswers (App.quizState (App.handleAnswer i a st)) !! i = Some a
  /\ (i <> j ->
        App.quizAnswers (App.quizState (App.handleAnswer i a st)) !! j
        = App.quizAnswers (App.quizState st) !! j)
  /\ App.handleAnswer i b (App.handleAnswer i a st) = App.handleAnswer i b st
  /\ (i <> j ->
        App.handleAnswer i a (App.handleAnswer j b st)
        = App.handleAnswer j b (App.handleAnswer i a st))
  /\ App.quizScore (App.quizState (App.handleAnswer i a st)) = App.quizScore (App.quizState st)
  /\ App.content (App.handleAnswer i a st) = App.content st.
Proof.
  destruct st as [v c ct f [cur ans score] t cl].
  unfold App.handleAnswer, App.setQuizAnswers, App.withQuiz. simpl.
  split_and!; try done.
  - apply lookup_insert_eq.
  - intros Hne. by apply lookup_insert_ne.
  - by rewrite insert_insert_eq.
  - intros Hne. do 2 f_equal. by apply insert_insert_ne.
Qed.

(** Resetting the quiz: whatever was answered and scored, the quiz state is
    the initial one, the questions stay, and a submit right after scores 0
    and lists every question as answered wrongly. *)
Theorem resetQuiz_clears (st : App.State) :
  App.quizState (App.resetQuiz st) = App.mkQuiz 0 ∅ None
  /\ App.content (App.resetQuiz st) = App.content st
  /\ App.quizScore (App.quizState (App.submitQuiz (App.resetQuiz st))) = Some 0
  /\ App.incorrectAnswers (App.quizQuestions (App.content (App.resetQuiz st)))
       (App.quizAnswers (App.quizState (App.resetQuiz st)))
     = imap (fun i q => (i, q)) (App.quizQuestions (App.content st)).
Proof.
  assert (Hwrong : App.incorrectAnswers (App.quizQuestions (App.content (App.resetQuiz st)))
                     (App.quizAnswers (App.quizState (App.resetQuiz st)))
                   = imap (fun i q => (i, q)) (App.quizQuestions (App.content st))).
  { destruct st as [v c ct f q t cl]. simpl. unfold App.incorrectAnswers.
    induction (imap (fun i q => (i, q)) (App.quizQuestions ct)) as [|x l IH]; [done |].
    rewrite filter_cons_True; [by rewrite IH |]. by rewrite lookup_empty. }
  split_and!; [by destruct st | by destruct st | | done].
  rewrite submitQuiz_quizScore. f_equal.
  pose proof (incorrect_plus_correct (App.quizQuestions (App.content (App.resetQuiz st)))
                (App.quizAnswers (App.quizState (App.resetQuiz st)))) as Hsum.
  rewrite Hwrong, length_imap in Hsum.
  replace (App.quizQuestions (App.content (App.resetQuiz st)))
    with (App.quizQuestions (App.content st)) in * by (by destruct st).
  lia.
Qed.

End ViewProofs.

(** ** Proofs: the favorite lists as a whole *)

Section ListProofs.

Variable toLowerCase : string -> string.
Variable trim : string -> string.

#[local] Abbreviation lowerTerm := (fun w => toLowerCase (FavoriteWord.german w)).

Lemma filter_all {A : Type} (P : A -> Prop) `{forall x, Decision (P x)} (l : list A) :
  Forall P l -> filter P l = l.
Proof.
  induction 1 as [|x l Hx _ IH]; [done |].
  by rewrite filter_cons_True, IH.
Qed.

Lemma NoDup_fmap_filter {A B : Type} (f : A -> B) (P : A -> Prop)
    `{forall x, Decision (P x)} (l : list A) :
  NoDup (f <$> l) -> NoDup (f <$> filter P l).
Proof.
  induction l as [|x l IH]; [done |].
  rewrite fmap_cons, NoDup_cons. intros [Hx Hl].
  rewrite filter_cons. case_decide; [|by apply IH].
  rewrite fmap_cons, NoDup_cons. split; [|by apply IH].
  intros Hin. apply Hx.
  apply list_elem_of_fmap in Hin as (y & Hy & Hin).
  apply list_elem_of_filter in Hin as [_ Hin].
  apply list_elem_of_fmap. eauto.
Qed.

Lemma favoriteLists_add (word : FavoriteWord) (listId : string) (st : App.State) :
  App.favoriteLists (App.favs (App.handleAddWordToList toLowerCase word listId st))
  = App.addWordTo toLowerCase word listId <$> App.favoriteLists (App.favs st).
Proof. by destruct st. Qed.

Lemma favoriteLists_remove (germanWord listId : string) (st : App.State) :
  App.favoriteLists (App.favs (App.handleRemoveWordFromList toLowerCase germanWord listId st))
  = App.removeWordFrom toLowerCase germanWord listId <$> App.favoriteLists (App.favs st).
Proof. by destruct st. Qed.

Lemma not_sameTerm_Forall (term : string) (words : list FavoriteWord) :
  ~ Exists (App.sameTerm toLowerCase term) words ->
  Forall (fun w => ~ App.sameTerm toLowerCase term w) words.
Proof.
  intros Hno. apply Forall_forall. intros w Hw Hsame.
  apply Hno, Exists_exists. by exists w.
Qed.

Lemma addWordTo_distinct (word : FavoriteWord) (listId : string) (list : FavoriteList) :
  distinctTerms toLowerCase list ->
  distinctTerms toLowerCase (App.addWordTo toLowerCase word listId list).
Proof.
  unfold distinctTerms, App.addWordTo. intros Hd.
  case_bool_decide; [|done]. case_bool_decide as Hex; [done |]. simpl.
  rewrite fmap_app. apply NoDup_app. split_and!; [done | | apply NoDup_singleton].
  intros x Hx Hx'. apply list_elem_of_fmap in Hx as (w & -> & Hw).
  apply list_elem_of_singleton in Hx'. apply Hex, Exists_exists. by exists w.
Qed.

Lemma removeWordFrom_distinct (germanWord listId : string) (list : FavoriteList) :
  distinctTerms toLowerCase list ->
  distinctTerms toLowerCase (App.removeWordFrom toLowerCase germanWord listId list).
Proof.
  unfold distinctTerms, App.removeWordFrom. intros Hd.
  case_bool_decide; [|done]. simpl. by apply NoDup_fmap_filter.
Qed.

(** Every operation on the lists keeps them free of repeated terms: when
    no list has two words with the same term, letter case apart, this is so
    after adding a word, after removing a term, after creating a list and
    after deleting one. *)
Theorem list_operations_keep_distinctTerms (word : FavoriteWord)
    (germanWord listId uuid listName : string) (st : App.State) :
  Forall (distinctTerms toLowerCase) (App.favoriteLists (App.favs st)) ->
  Forall (distinctTerms toLowerCase)
    (App.favoriteLists (App.favs (App.handleAddWordToList toLowerCase word listId st)))
  /\ Forall (distinctTerms toLowerCase)
       (App.favoriteLists
          (App.favs (App.handleRemoveWordFromList toLowerCase germanWord listId st)))
  /\ Forall (distinctTerms toLowerCase)
       (App.favoriteLists (App.favs (App.handleCreateList trim uuid listName st).1))
  /\ Forall (distinctTerms toLowerCase)
       (App.favoriteLists (App.favs (App.handleDeleteList listId st))).
Proof.
  intros Hd. split_and!.
  - rewrite favoriteLists_add. apply Forall_fmap.
    eapply Forall_impl; [exact Hd |]. intros l. apply addWordTo_distinct.
  - rewrite favoriteLists_remove. apply Forall_fmap.
    eapply Forall_impl; [exact Hd |]. intros l. apply removeWordFrom_distinct.
  - unfold App.handleCreateList. case_bool_decide; [done |].
    destruct st as [v c ct [lists texts modal] q t cl]. simpl in *.
    apply Forall_cons. split; [apply NoDup_nil_2 | done].
  - destruct st as [v c ct [lists texts modal] q t cl]. simpl in *.
    apply Forall_forall. intros l Hl. apply list_elem_of_filter in Hl as [_ Hl].
    by apply (proj1 (Forall_forall _ _) Hd).
Qed.

(** Removing a term right after adding a word with it gives the lists back,
    when no list with the given identifier held the term before. *)
Theorem remove_after_add (word : FavoriteWord) (listId : string) (st : App.State) :
  (forall list, list ∈ App.favoriteLists (App.favs st) -> FavoriteList.id list = listId ->
     ~ Exists (App.sameTerm toLowerCase (FavoriteWord.german word)) (FavoriteList.words list)) ->
  App.favoriteLists
    (App.favs (App.handleRemoveWordFromList toLowerCase (FavoriteWord.german word) listId
                 (App.handleAddWordToList toLowerCase word listId st)))
  = App.favoriteLists (App.favs st).
Proof.
  intros Hfresh. rewrite favoriteLists_remove, favoriteLists_add, <- list_fmap_compose.
  rewrite <- (list_fmap_id (App.favoriteLists (App.favs st))) at 2.
  apply list_fmap_ext. intros i list Hi. simpl.
  apply list_elem_of_lookup_2 in Hi.
  destruct (decide (FavoriteList.id list = listId)) as [Hid|Hid].
  - pose proof (Hfresh list Hi Hid) as Hnex.
    unfold App.addWordTo.
    rewrite (bool_decide_eq_true_2 _ Hid), (bool_decide_eq_false_2 _ Hnex).
    unfold App.removeWordFrom. simpl. rewrite (bool_decide_eq_true_2 _ Hid).
    rewrite filter_app, filter_all by (by apply not_sameTerm_Forall).
    rewrite filter_cons_False, filter_nil, app_nil_r; [by destruct list |].
    intros Hn. by apply Hn.
  - unfold App.addWordTo. rewrite (bool_decide_eq_false_2 _ Hid).
    unfold App.removeWordFrom. by rewrite (bool_decide_eq_false_2 _ Hid).
Qed.

(** Adding a word and removing a term change words only: the identifiers,
    the names, the number and the order of the lists stay, and so does the
    archive of saved texts. *)
Theorem word_operations_keep_lists (word : FavoriteWord) (germanWord listId : string)
    (st : App.State) :
  let added := App.handleAddWordToList toLowerCase word listId st in
  let removed := App.handleRemoveWordFromList toLowerCase germanWord listId st in
  FavoriteList.id <$> App.favoriteLists (App.favs added)
  = FavoriteList.id <$> App.favoriteLists (App.favs st)
  /\ FavoriteList.name <$> App.favoriteLists (App.favs added)
     = FavoriteList.name <$> App.favoriteLists (App.favs st)
  /\ FavoriteList.id <$> App.favoriteLists (App.favs removed)
     = FavoriteList.id <$> App.favoriteLists (App.favs st)
  /\ FavoriteList.name <$> App.favoriteLists (App.favs removed)
     = FavoriteList.name <$> App.favoriteLists (App.favs st)
  /\ App.savedTexts (App.favs added) = App.savedTexts (App.favs st)
  /\ App.savedTexts (App.favs removed) = App.savedTexts (App.favs st).
Proof.
  intros added removed. subst added removed.
  rewrite favoriteLists_add, favoriteLists_remove, <- !list_fmap_compose.
  split_and!; try (by destruct st); apply list_fmap_ext; intros i l _; simpl;
    unfold App.addWordTo, App.removeWordFrom; by repeat case_bool_decide.
Qed.

(** With an identifier that no list has, adding a word and removing a term
    leave the lists as they are. *)
Theorem word_operations_unknown_list (word : FavoriteWord) (germanWord listId : string)
    (st : App.State) :
  (forall list, list ∈ App.favoriteLists (App.favs st) -> FavoriteList.id list <> listId) ->
  App.favoriteLists (App.favs (App.handleAddWordToList toLowerCase word listId st))
  = App.favoriteLists (App.favs st)
  /\ App.favoriteLists (App.favs (App.handleRemoveWordFromList toLowerCase germanWord listId st))
     = App.favoriteLists (App.favs st).
Proof.
  intros Hno. rewrite favoriteLists_add, favoriteLists_remove.
  split; rewrite <- (list_fmap_id (App.favoriteLists (App.favs st))) at 2;
    apply list_fmap_ext; intros i l Hi; apply list_elem_of_lookup_2 in Hi; simpl;
    unfold App.addWordTo, App.removeWordFrom;
    by rewrite (bool_decide_eq_false_2 _ (Hno l Hi)).
Qed.

(** Deleting a list removes every list with the identifier and keeps the
    others in their order; deleting right after creating a list under a new
    identifier gives the lists back. *)
Theorem handleDeleteList_after_create (uuid listName : string) (st : App.State) :
  (forall list, list ∈ App.favoriteLists (App.favs st) -> FavoriteList.id list <> uuid) ->
  let created := (App.handleCreateList trim uuid listName st).1 in
  App.favoriteLists (App.favs (App.handleDeleteList uuid created))
  = App.favoriteLists (App.favs st)
  /\ (trim listName <> "" ->
        App.favoriteLists (App.favs created)
        = FavoriteList.mk uuid (trim listName) [] :: App.favoriteLists (App.favs st))
  /\ (trim listName = "" -> App.handleCreateList trim uuid listName st = (st, None)).
Proof.
  intros Hfresh created. subst created. unfold App.handleCreateList.
  assert (Hall : filter (fun list => FavoriteList.id list <> uuid)
                   (App.favoriteLists (App.favs st)) = App.favoriteLists (App.favs st)).
  { apply filter_all, Forall_forall. exact Hfresh. }
  destruct st as [v c ct [lists texts modal] q t cl]. simpl in *.
  case_bool_decide as Hblank; simpl; split_and!; try done.
  rewrite filter_cons_False by (intros Hn; by apply Hn). exact Hall.
Qed.

(** [handleCreateAndAdd] of the modal, with a name that is not blank and a
    new identifier: one list is put before the others, named by the trimmed
    name and holding the word of the modal alone, and the modal is closed.
    With a blank name nothing changes and the modal stays open. *)
Theorem handleCreateAndAdd_new_list (uuid newListName : string) (modalData : FavoriteWord)
    (st : App.State) :
  (forall list, list ∈ App.favoriteLists (App.favs st) -> FavoriteList.id list <> uuid) ->
  let st' := App.handleCreateAndAdd toLowerCase trim uuid newListName modalData st in
  (trim newListName <> "" ->
     App.favoriteLists (App.favs st')
     = FavoriteList.mk uuid (trim newListName) [modalData] :: App.favoriteLists (App.favs st)
     /\ App.addToListModal (App.favs st') = None)
  /\ (trim newListName = "" -> st' = st).
Proof.
  intros Hfresh st'. subst st'. unfold App.handleCreateAndAdd, App.handleCreateList.
  destruct (bool_decide (trim newListName = "")) eqn:Hblank.
  { apply bool_decide_eq_true in Hblank. by split. }
  apply bool_decide_eq_false in Hblank. split; [|done].
  intros _. rewrite favoriteLists_add.
  destruct st as [v c ct [lists texts modal] q t cl]. simpl in *. split; [|done].
  unfold App.addWordTo at 1. simpl.
  rewrite bool_decide_eq_true_2 by done.
  f_equal; [by destruct modalData |].
  rewrite <- (list_fmap_id lists) at 2.
  apply list_fmap_ext; intros i l Hi; apply list_elem_of_lookup_2 in Hi; simpl.
  unfold App.addWordTo. by rewrite (bool_decide_eq_false_2 _ (Hfresh l Hi)).
Qed.

(** The modal is never opened for a word without a translation: while its
    word, if it is open, has a translation other than the empty text and
    the text of a failed translation, this stays so after
    [handleOpenAddToList], whatever it is called with, and after adding a
    word to a list. *)
Theorem handleOpenAddToList_translated (german turkish listId : string)
    (word : FavoriteWord) (st : App.State) :
  modalTranslated st ->
  modalTranslated (App.handleOpenAddToList german turkish st)
  /\ modalTranslated (App.handleAddWordToList toLowerCase word listId st).
Proof.
  intros Hm. split.
  - unfold App.handleOpenAddToList.
    destruct (bool_decide (turkish = "")) eqn:E1; [done |].
    destruct (bool_decide (turkish = "Çeviri hatası")) eqn:E2; [done |].
    apply bool_decide_eq_false in E1, E2.
    destruct st as [v c ct [lists texts modal] q t cl].
    intros w [= <-]. done.
  - destruct st as [v c ct [lists texts modal] q t cl]. by intros w [=].
Qed.

(** After a word is added to a list that exists, [isWordInFavorites] holds
    for its term in every letter case. *)
Theorem isWordInFavorites_after_add (word : FavoriteWord) (listId term : string)
    (st : App.State) :
  (exists list, list ∈ App.favoriteLists (App.favs st) /\ FavoriteList.id list = listId) ->
  toLowerCase term = toLowerCase (FavoriteWord.german word) ->
  App.isWordInFavorites toLowerCase term
    (App.handleAddWordToList toLowerCase word listId st) = true.
Proof.
  intros (list & Hin & Hid) Hterm. unfold App.isWordInFavorites.
  apply bool_decide_eq_true. rewrite favoriteLists_add.
  apply Exists_exists. exists (App.addWordTo toLowerCase word listId list). split.
  - apply list_elem_of_fmap. eauto.
  - rewrite Hterm. by apply addWordTo_has_term.
Qed.

End ListProofs.

(** Takes the cases of a membership in a list that is written out. *)
Ltac members H :=
  repeat (apply elem_of_cons in H as [->|H]); [.. | by apply elem_of_nil in H].

Lemma list_operations_keep_distinctTerms_witness :
  Forall (distinctTerms asciiLower)
    (App.favoriteLists
       (App.favs (App.handleAddWordToList asciiLower (FavoriteWord.mk "KLEIN" "ufak") "c502"
                    tidyLists))).
Proof.
  apply (list_operations_keep_distinctTerms asciiLower trim
           (FavoriteWord.mk "KLEIN" "ufak") "klein" "c502" "0001" "Verben" tidyLists).
  unfold distinctTerms. apply (bool_decide_unpack _). by vm_compute.
Defined.

Lemma remove_after_add_witness :
  App.favoriteLists
    (App.favs (App.handleRemoveWordFromList asciiLower "Gross" "c502"
                 (App.handleAddWordToList asciiLower (FavoriteWord.mk "Gross" "büyük") "c502"
                    tidyLists)))
  = [adjectives; nouns].
Proof.
  apply (remove_after_add asciiLower (FavoriteWord.mk "Gross" "büyük") "c502" tidyLists).
  intros list Hin Hid Hex. change (list ∈ [adjectives; nouns]) in Hin.
  members Hin; [|discriminate Hid].
  apply Exists_exists in Hex as (w & Hw & Hsame).
  change (w ∈ [FavoriteWord.mk "schön" "güzel"; FavoriteWord.mk "Klein" "küçük"]) in Hw.
  members Hw; discriminate Hsame.
Defined.

Lemma word_operations_unknown_list_witness :
  App.favoriteLists
    (App.favs (App.handleAddWordToList asciiLower (FavoriteWord.mk "Gross" "büyük") "ffff"
                 tidyLists))
  = [adjectives; nouns].
Proof.
  apply (word_operations_unknown_list asciiLower (FavoriteWord.mk "Gross" "büyük") "gross"
           "ffff" tidyLists).
  intros list Hin. change (list ∈ [adjectives; nouns]) in Hin. members Hin; discriminate.
Defined.

Lemma handleDeleteList_after_create_witness :
  App.favoriteLists
    (App.favs (App.handleDeleteList "0001"
                 (App.handleCreateList trim "0001" " Verben " tidyLists).1))
  = [adjectives; nouns].
Proof.
  apply (handleDeleteList_after_create trim "0001" " Verben " tidyLists).
  intros list Hin. change (list ∈ [adjectives; nouns]) in Hin. members Hin; discriminate.
Defined.

Lemma handleCreateAndAdd_new_list_witness :
  App.favoriteLists
    (App.favs (App.handleCreateAndAdd asciiLower trim "0001" " Verben "
                 (FavoriteWord.mk "gehen" "gitmek") tidyLists))
  = [FavoriteList.mk "0001" "Verben" [FavoriteWord.mk "gehen" "gitmek"]; adjectives; nouns].
Proof.
  refine (proj1 (proj1 (handleCreateAndAdd_new_list asciiLower trim "0001" " Verben "
                          (FavoriteWord.mk "gehen" "gitmek") tidyLists _) _)).
  - intros list Hin. change (list ∈ [adjectives; nouns]) in Hin. members Hin; discriminate.
  - discriminate.
Defined.

Lemma handleOpenAddToList_translated_witness :
  modalTranslated (App.handleOpenAddToList "gehen" "" tidyLists)
  /\ modalTranslated (App.handleOpenAddToList "gehen" "gitmek" tidyLists).
Proof.
  split.
  - apply (handleOpenAddToList_translated asciiLower "gehen" "" "c502"
             (FavoriteWord.mk "gehen" "gitmek") tidyLists).
    by intros w [=].
  - apply (handleOpenAddToList_translated asciiLower "gehen" "gitmek" "c502"
             (FavoriteWord.mk "gehen" "gitmek") tidyLists).
    by intros w [=].
Defined.

Lemma isWordInFavorites_after_add_witness :
  App.isWordInFavorites asciiLower "GEHEN"
    (App.handleAddWordToList asciiLower (FavoriteWord.mk "gehen" "gitmek") "a91e" tidyLists)
  = true.
Proof.
  apply (isWordInFavorites_after_add asciiLower (FavoriteWord.mk "gehen" "gitmek") "a91e"
           "GEHEN" tidyLists).
  - exists nouns. split; [|done]. right. left.
  - reflexivity.
Defined.

(** ** Proofs: saving, loading and deleting together *)

Section ArchiveRoundTrips.

Lemma isTextSaved_false (st : App.State) :
  App.isTextSaved st = false <->
  forall t, t ∈ App.savedTexts (App.favs st) ->
    App.SavedText.text t <> App.generatedText (App.content st).
Proof.
  rewrite <- not_true_iff_false, isTextSaved_true. split.
  - intros Hno t Ht Heq. apply Hno. by exists t.
  - intros Hno (t & Ht & Heq). by apply (Hno t).
Qed.

(** Loading the entry that saving has just made brings back what was on
    screen when it was saved, whatever the state has become since: the text,
    the sentence translations, the questions, the theme and the level.  It
    shows the main view with the quiz not begun and no cloze exercise. *)
Theorem handleLoadText_after_save (st later : App.State) :
  App.generatedText (App.content st) <> "" ->
  App.isTextSaved st = false ->
  exists entry,
    App.savedTexts (App.favs (App.handleSaveText st)) = entry :: App.savedTexts (App.favs st)
    /\ App.content (App.handleLoadText entry later) = App.content st
    /\ App.theme (App.core (App.handleLoadText entry later)) = App.theme (App.core st)
    /\ App.level (App.core (App.handleLoadText entry later)) = App.level (App.core st)
    /\ App.quizState (App.handleLoadText entry later) = App.mkQuiz 0 ∅ None
    /\ App.cloze (App.handleLoadText entry later) = App.mkCloze false None
    /\ App.view (App.handleLoadText entry later) = App.main
    /\ App.favs (App.handleLoadText entry later) = App.favs later
    /\ App.tts (App.handleLoadText entry later) = App.tts later.
Proof.
  intros Hne Hns. rewrite handleSaveText_fresh by done.
  eexists. split; [reflexivity |].
  destruct st as [v c [txt tr qz] f q t cl], later as [v' c' ct' f' q' t' cl']. done.
Qed.

(** Saving turns the saved mark on, and deleting the entry just saved turns
    it off again and gives the archive back. *)
Theorem handleDeleteText_after_save (st : App.State) :
  App.generatedText (App.content st) <> "" ->
  App.isTextSaved st = false ->
  let saved := App.handleSaveText st in
  App.isTextSaved saved = true
  /\ forall entry, entry ∈ App.savedTexts (App.favs saved) ->
       App.SavedText.text entry = App.generatedText (App.content st) ->
       App.savedTexts (App.favs (App.handleDeleteText entry saved))
       = App.savedTexts (App.favs st)
       /\ App.isTextSaved (App.handleDeleteText entry saved) = false.
Proof.
  intros Hne Hns saved. subst saved. rewrite handleSaveText_fresh by done.
  pose proof (proj1 (isTextSaved_false st) Hns) as Hno.
  assert (Hkeep : forall body, body = App.generatedText (App.content st) ->
            filter (fun t => App.SavedText.text t <> body) (App.savedTexts (App.favs st))
            = App.savedTexts (App.favs st)).
  { intros body ->. apply filter_all, Forall_forall. exact Hno. }
  destruct st as [v c [txt tr qz] [lists texts modal] q t cl]. simpl in *. split.
  - unfold App.isTextSaved. simpl. apply bool_decide_eq_true. by apply Exists_cons_hd.
  - intros entry _ Hbody.
    rewrite filter_cons_False by (intros Hn; apply Hn; simpl; congruence).
    rewrite (Hkeep _ Hbody). split; [reflexivity |].
    unfold App.isTextSaved. simpl. rewrite filter_cons_False, (Hkeep _ Hbody)
      by (intros Hn; apply Hn; simpl; congruence).
    apply bool_decide_eq_false. intros Hex%Exists_exists.
    destruct Hex as (t' & Ht' & Heq). by apply (Hno t').
Qed.

(** The archive never holds two entries with the same body text, nor an
    entry with an empty one: when this is so, it is so after saving and
    after deleting. *)
Theorem archive_stays_distinct (textToDelete : App.SavedText) (st : App.State) :
  archiveDistinct (App.savedTexts (App.favs st)) ->
  archiveDistinct (App.savedTexts (App.favs (App.handleSaveText st)))
  /\ archiveDistinct (App.savedTexts (App.favs (App.handleDeleteText textToDelete st))).
Proof.
  intros [Hnd Hne]. split.
  - destruct (decide (App.generatedText (App.content st) = "")) as [He|Hne'].
    { unfold App.handleSaveText. by rewrite bool_decide_eq_true_2. }
    destruct (App.isTextSaved st) eqn:Hs.
    { by rewrite handleSaveText_saved. }
    rewrite handleSaveText_fresh by done.
    pose proof (proj1 (isTextSaved_false st) Hs) as Hno.
    destruct st as [v c [txt tr qz] [lists texts modal] q t cl]. simpl in *.
    split.
    + rewrite fmap_cons. apply NoDup_cons. split; [|done]. simpl.
      intros Hin%list_elem_of_fmap. destruct Hin as (t' & Heq & Ht').
      by apply (Hno t').
    + by apply Forall_cons.
  - destruct st as [v c ct [lists texts modal] q t cl]. simpl in *. split.
    + by apply NoDup_fmap_filter.
    + apply Forall_forall. intros t' Ht'. apply list_elem_of_filter in Ht' as [_ Ht'].
      by apply (proj1 (Forall_forall _ _) Hne).
Qed.

End ArchiveRoundTrips.

Lemma handleLoadText_after_save_witness :
  exists entry,
    App.savedTexts (App.favs (App.handleSaveText readingAloud)) = [entry]
    /\ App.content (App.handleLoadText entry (initialState "neutral"))
       = App.content readingAloud.
Proof.
  destruct (handleLoadText_after_save readingAloud (initialState "neutral"))
    as (entry & Hsaved & Hcontent & _); [discriminate | reflexivity |].
  exists entry. by split.
Defined.

Lemma handleDeleteText_after_save_witness :
  App.isTextSaved (App.handleSaveText readingAloud) = true.
Proof.
  apply (handleDeleteText_after_save readingAloud); [discriminate | reflexivity].
Defined.

Lemma archive_stays_distinct_witness :
  archiveDistinct (App.savedTexts (App.favs (App.handleDeleteText savedWien withArchive))).
Proof.
  apply (archive_stays_distinct savedWien withArchive).
  unfold archiveDistinct. apply (bool_decide_unpack _). by vm_compute.
Defined.

(** ** Proofs: the outcomes of generating *)

Section GenerateOutcomes.

Variable generateText : CEFRLevel -> string -> nat -> string -> outcome string.
Variable translateTextSentenceBySentence : string -> outcome (list TranslationPair).
Variable generateQuiz : string -> nat -> outcome (list QuizQuestion).
Variable generateRandomTheme : CEFRLevel -> string -> outcome string.

#[local] Abbreviation handleGenerate :=
  (App.handleGenerate generateText translateTextSentenceBySentence generateQuiz).


(** What [handleGenerate] leaves and what it sets whatever the calls do: the
    favorite lists, the archive, the open modal, the view, the word count
    and the speech state stay; the level, the theme and the mood are the
    ones given; the quiz is at its first question with no answer and no
    score, and no cloze exercise is open. *)
Theorem handleGenerate_frame (levelToUse : CEFRLevel) (themeToUse moodToUse : string)
    (st : App.State) :
  let st' := handleGenerate levelToUse themeToUse moodToUse st in
  App.favs st' = App.favs st
  /\ App.view st' = App.view st
  /\ App.tts st' = App.tts st
  /\ App.wordCount (App.core st') = App.wordCount (App.core st)
  /\ App.level (App.core st') = levelToUse
  /\ App.theme (App.core st') = themeToUse
  /\ App.mood (App.core st') = moodToUse
  /\ App.quizState st' = App.mkQuiz 0 ∅ None
  /\ App.cloze st' = App.mkCloze false None.
Proof.
  intros st'. subst st'.
  unfold App.handleGenerate, App.handleGenerate_calls.
  destruct (generateText _ _ _ _) as [text|e]; [|by destruct st].
  destruct (translateTextSentenceBySentence text) as [sentences|e]; [|by destruct st].
  destruct (generateQuiz text 5) as [quiz|e]; by destruct st.
Qed.

(** [handleGenerateRandom]: when no theme can be had, the text on screen,
    its translations and quiz, the answers given, the cloze exercise and the
    theme stay as they were, the message about the theme is shown and the
    loading flag is off; with a theme, the state is the one [handleGenerate]
    reaches for this theme with the level and the mood of the state. *)
Theorem handleGenerateRandom_outcome (st : App.State) :
  let st' := App.handleGenerateRandom generateText translateTextSentenceBySentence
               generateQuiz generateRandomTheme st in
  match generateRandomTheme (App.level (App.core st)) (App.mood (App.core st)) with
  | Thrown _ =>
      App.content st' = App.content st
      /\ App.quizState st' = App.quizState st
      /\ App.cloze st' = App.cloze st
      /\ App.theme (App.core st') = App.theme (App.core st)
      /\ App.error (App.core st') = Some "Rastgele tema oluşturulurken bir hata oluştu."
      /\ App.isLoading (App.core st') = false
  | Returned randomTheme =>
      st' = handleGenerate (App.level (App.core st)) randomTheme (App.mood (App.core st)) st
      /\ App.theme (App.core st') = randomTheme
  end.
Proof.
  intros st'. subst st'. unfold App.handleGenerateRandom.
  destruct (generateRandomTheme _ _) as [randomTheme|e]; [|by destruct st].
  split.
  - unfold App.handleGenerate, App.handleGenerate_calls.
    replace (App.wordCount (App.core (App.setError None (App.setIsLoading true st))))
      with (App.wordCount (App.core st)) by (by destruct st).
    destruct (generateText _ _ _ _) as [text|e]; [|by destruct st].
    destruct (translateTextSentenceBySentence text) as [sentences|e]; [|by destruct st].
    destruct (generateQuiz text 5) as [quiz|e]; by destruct st.
  - unfold App.handleGenerate, App.handleGenerate_calls.
    destruct (generateText _ _ _ _) as [text|e]; [|by destruct st].
    destruct (translateTextSentenceBySentence text) as [sentences|e]; [|by destruct st].
    destruct (generateQuiz text 5) as [quiz|e]; by destruct st.
Qed.

End GenerateOutcomes.

(** ** Proofs: reading aloud *)

Section SpeechProofs.

Variable trim : string -> string.

#[local] Abbreviation sentencesOf := (fun st => App.translatedSentences (App.content st)).
#[local] Abbreviation notBlank := (fun s : string => trim s <> "").

Lemma playSentences_fuel_next (fuel index : nat) (st : App.State) :
  length (sentencesOf st) - index <= fuel ->
  App.playSentences_fuel trim fuel index st
  = match nextSpoken trim index (drop index (sentencesOf st)) with
    | Some (i, s) => (App.setSpeakingSentenceIndex (Some i) st, [App.Speak i s])
    | None => (speechStopped st, [])
    end.
Proof.
  revert index st. induction fuel as [|fuel IH]; intros index st Hfuel.
  - simpl. rewrite bool_decide_eq_true_2 by lia.
    by rewrite drop_ge by lia.
  - simpl. case_bool_decide as Hend.
    { by rewrite drop_ge by lia. }
    destruct (sentencesOf st !! index) as [entry|] eqn:Hentry;
      [|apply lookup_ge_None in Hentry; lia].
    rewrite (drop_S _ _ _ Hentry). simpl.
    case_bool_decide as Hblank; [|done].
    rewrite IH.
    + replace (index + 1) with (S index) by lia.
      replace (sentencesOf (App.setSpeakingSentenceIndex (Some index) st))
        with (sentencesOf st) by (by destruct st).
      destruct (nextSpoken trim (S index) (drop (S index) (sentencesOf st)))
        as [[i s]|]; by destruct st.
    + replace (sentencesOf (App.setSpeakingSentenceIndex (Some index) st))
        with (sentencesOf st) by (by destruct st).
      lia.
Qed.

Lemma playSentences_next (index : nat) (st : App.State) :
  App.playSentences trim index st
  = match nextSpoken trim index (drop index (sentencesOf st)) with
    | Some (i, s) => (App.setSpeakingSentenceIndex (Some i) st, [App.Speak i s])
    | None => (speechStopped st, [])
    end.
Proof. unfold App.playSentences. by apply playSentences_fuel_next. Qed.

Lemma nextSpoken_Some (index : nat) (rest : list TranslationPair) (i : nat) (s : string) :
  nextSpoken trim index rest = Some (i, s) ->
  exists k entry,
    i = index + k /\ rest !! k = Some entry /\ TranslationPair.german entry = s
    /\ notBlank s
    /\ Forall (fun e => trim (TranslationPair.german e) = "") (take k rest)
    /\ filter notBlank (TranslationPair.german <$> rest)
       = s :: filter notBlank (TranslationPair.german <$> drop (S k) rest).
Proof.
  revert index. induction rest as [|entry rest IH]; intros index; [done |].
  simpl. case_bool_decide as Hblank.
  - intros H. destruct (IH _ H) as (k & e & -> & Hk & Hs & Hnb & Hall & Hf).
    exists (S k), e.
    split_and!; [lia | done | done | done | by constructor |].
    rewrite ?fmap_cons, filter_cons_False by (intros Hn; by apply Hn). exact Hf.
  - intros [= <- <-]. exists 0, entry.
    split_and!; [lia | done | done | done | by constructor |].
    by rewrite ?fmap_cons, filter_cons_True.
Qed.

Lemma nextSpoken_None (index : nat) (rest : list TranslationPair) :
  nextSpoken trim index rest = None ->
  filter notBlank (TranslationPair.german <$> rest) = [].
Proof.
  revert index. induction rest as [|entry rest IH]; intros index; [done |].
  simpl. case_bool_decide as Hblank; [|done].
  intros H. rewrite ?fmap_cons, filter_cons_False by (intros Hn; by apply Hn). by eapply IH.
Qed.

(** What one call of [playSentences] does.  Either it hands one utterance to
    [speak]: the sentence at the index it leaves as the speech position,
    which is not below the index of the call, a sentence that is not blank
    with only blank sentences between the index of the call and it.  Or it
    hands none and stops speech: then every sentence from the index of the
    call on is blank. *)
Theorem playSentences_speaks_next (index : nat) (st : App.State) :
  let '(st', cmds) := App.playSentences trim index st in
  App.content st' = App.content st
  /\ ((exists i entry,
         cmds = [App.Speak i (TranslationPair.german entry)]
         /\ sentencesOf st !! i = Some entry
         /\ index <= i
         /\ notBlank (TranslationPair.german entry)
         /\ (forall j e, index <= j < i -> sentencesOf st !! j = Some e ->
               trim (TranslationPair.german e) = "")
         /\ App.tts st' = App.mkTts (App.isSpeaking (App.tts st)) (Some i))
      \/ (cmds = []
          /\ App.tts st' = App.mkTts false None
          /\ forall j e, index <= j -> sentencesOf st !! j = Some e ->
               trim (TranslationPair.german e) = "")).
Proof.
  rewrite playSentences_next.
  destruct (nextSpoken trim index (drop index (sentencesOf st))) as [[i s]|] eqn:Hnext.
  - apply nextSpoken_Some in Hnext as (k & entry & -> & Hk & <- & Hnb & Hall & _).
    rewrite lookup_drop in Hk.
    split; [by destruct st |]. left. exists (index + k), entry.
    split_and!; [done | done | lia | done | | by destruct st].
    intros j e Hj He.
    apply (proj1 (Forall_forall _ _) Hall).
    apply list_elem_of_lookup. exists (j - index).
    rewrite lookup_take_lt by lia. rewrite lookup_drop.
    by replace (index + (j - index)) with j by lia.
  - split; [by destruct st |]. right. split_and!; [done | by destruct st |].
    intros j e Hj He.
    pose proof (nextSpoken_None _ _ Hnext) as Hnone.
    destruct (decide (trim (TranslationPair.german e) = "")) as [|Hnb]; [done |].
    exfalso. eapply (filter_nil_not_elem_of _ _ (TranslationPair.german e) Hnone Hnb).
    apply list_elem_of_fmap. exists e. split; [done |].
    apply list_elem_of_lookup. exists (j - index).
    rewrite lookup_drop. by replace (index + (j - index)) with j by lia.
Qed.

Lemma playback_from (fuel index : nat) (st : App.State) :
  length (sentencesOf st) - index <= fuel ->
  playback trim fuel (App.playSentences trim index st).2 (App.playSentences trim index st).1
  = (speechStopped st,
     filter notBlank (TranslationPair.german <$> drop index (sentencesOf st))).
Proof.
  revert index st. induction fuel as [|fuel IH]; intros index st Hfuel.
  - rewrite playSentences_next, drop_ge by lia. done.
  - rewrite playSentences_next.
    destruct (nextSpoken trim index (drop index (sentencesOf st))) as [[i s]|] eqn:Hnext.
    + apply nextSpoken_Some in Hnext as (k & entry & -> & Hk & <- & Hnb & Hall & Hf).
      apply lookup_lt_Some in Hk as Hlt. rewrite length_drop in Hlt.
      rewrite Hf, drop_drop. cbn [fst snd].
      set (st1 := App.setSpeakingSentenceIndex (Some (index + k)) st).
      change (playback trim (S fuel) [App.Speak (index + k) (TranslationPair.german entry)] st1)
        with (let '(st', next) := App.utterance_onend trim (index + k) st1 in
              let '(st'', spoken) := playback trim fuel next st' in
              (st'', TranslationPair.german entry :: spoken)).
      unfold App.utterance_onend.
      pose proof (IH (index + k + 1) st1) as IH1.
      replace (sentencesOf st1) with (sentencesOf st) in IH1 by (by destruct st).
      destruct (App.playSentences trim (index + k + 1) st1) as [st' next].
      simpl in IH1. cbv beta iota zeta. rewrite IH1 by lia.
      replace (index + S k) with (index + k + 1) by lia.
      subst st1. by destruct st.
    + by rewrite (nextSpoken_None _ _ Hnext).
Qed.

(** Reading aloud from the play button to the end.  With speech supported,
    nothing being spoken and at least one sentence on screen, when every
    utterance is spoken to its end: the sentences spoken are the sentences
    on screen that are not blank, each once and in their order, and at the
    end speech is off and no sentence is marked; nothing else of the state
    has changed.  The utterance is handed over after a [cancel] exactly when
    the platform was busy. *)
Theorem playback_in_order (busy : bool) (st : App.State) :
  App.isSpeaking (App.tts st) = false ->
  sentencesOf st <> [] ->
  let '(st1, cmds) := App.handlePlayPause trim true busy st in
  playback trim (length (sentencesOf st)) cmds st1
  = (App.setSpeakingSentenceIndex None st,
     filter notBlank (TranslationPair.german <$> sentencesOf st))
  /\ (head cmds = Some App.Cancel <-> busy = true).
Proof.
  intros Hquiet Hne. unfold App.handlePlayPause. simpl. rewrite Hquiet.
  rewrite bool_decide_eq_true_2 by (destruct (sentencesOf st); [done | simpl; lia]).
  pose proof (playback_from (length (sentencesOf st)) 0 (App.setIsSpeaking true st)) as Hrun.
  replace (sentencesOf (App.setIsSpeaking true st)) with (sentencesOf st) in Hrun
    by (by destruct st).
  rewrite drop_0 in Hrun. specialize (Hrun (Nat.le_sub_l _ _)).
  pose proof (playSentences_next 0 (App.setIsSpeaking true st)) as Hfirst.
  destruct (App.playSentences trim 0 (App.setIsSpeaking true st)) as [st1 spoken].
  simpl in Hrun. split.
  - replace (playback trim (length (sentencesOf st)) ((if busy then [App.Cancel] else []) ++ spoken) st1)
      with (playback trim (length (sentencesOf st)) spoken st1).
    + rewrite Hrun. f_equal. destruct st as [v c ct f q [sp idx] cl]. simpl in *. by subst sp.
    + destruct busy; [|done]. by destruct (length (sentencesOf st)).
  - destruct busy; [done |]. simpl. split; [|done].
    destruct (nextSpoken trim 0 (drop 0 (sentencesOf (App.setIsSpeaking true st))))
      as [[i s]|]; by injection Hfirst as _ ->.
Qed.

(** Stopping.  A press while speech is on hands [cancel] to the platform,
    turns speech off, unmarks the sentence and leaves the error message as
    it was; the [canceled] or [interrupted] error the platform then reports
    for the utterance changes nothing.  Any other error of an utterance
    sets the error message and stops speech. *)
Theorem handlePlayPause_stops (busy : bool) (error : string) (st : App.State) :
  App.isSpeaking (App.tts st) = true ->
  let '(st1, cmds) := App.handlePlayPause trim true busy st in
  cmds = [App.Cancel]
  /\ st1 = speechStopped st
  /\ App.error (App.core st1) = App.error (App.core st)
  /\ App.utterance_onerror "canceled" st1 = st1
  /\ App.utterance_onerror "interrupted" st1 = st1
  /\ (error <> "canceled" -> error <> "interrupted" ->
        App.tts (App.utterance_onerror error st) = App.mkTts false None
        /\ App.error (App.core (App.utterance_onerror error st))
           = Some "Seslendirme sırasında bir hata oluştu.").
Proof.
  intros Hon. unfold App.handlePlayPause. simpl. rewrite Hon.
  split_and!; try done; try (by destruct st).
  intros H1 H2. unfold App.utterance_onerror.
  rewrite !bool_decide_eq_false_2 by done. by destruct st.
Qed.

(** The play button without speech support only sets the error message, and
    with nothing to read and nothing being spoken it does nothing. *)
Lemma handlePlayPause_nothing_to_do (busy : bool) (st : App.State) :
  (App.handlePlayPause trim false busy st).2 = []
  /\ App.tts (App.handlePlayPause trim false busy st).1 = App.tts st
  /\ App.error (App.core (App.handlePlayPause trim false busy st).1)
     = Some "Seslendirme özelliği bu tarayıcıda desteklenmiyor."
  /\ (App.isSpeaking (App.tts st) = false -> sentencesOf st = [] ->
        App.handlePlayPause trim true busy st = (st, [])).
Proof.
  unfold App.handlePlayPause. simpl. split_and!; try (by destruct st).
  intros -> ->. done.
Qed.

End SpeechProofs.

Lemma playback_in_order_witness :
  let '(st1, cmds) := App.handlePlayPause trim true false quietStory in
  playback trim 3 cmds st1
  = (App.setSpeakingSentenceIndex None quietStory,
     ["Anna wohnt in Berlin."; "Sie trinkt Kaffee."])
  /\ (head cmds = Some App.Cancel <-> false = true).
Proof.
  exact (playback_in_order trim false quietStory eq_refl ltac:(discriminate)).
Defined.

Lemma handlePlayPause_stops_witness :
  (App.handlePlayPause trim true true readingAloud).2 = [App.Cancel].
Proof.
  exact (proj1 (handlePlayPause_stops trim true "network" readingAloud eq_refl)).
Defined.

(** ** Proofs: the texts the service sends and cleans *)

Section TextProofs.

Import geminiService.

Lemma trimStart_spaces (pre s : string) (c : ascii) :
  allSpaces pre = true -> isSpace c = false ->
  trimStart (pre +:+ String c s) = String c s.
Proof.
  intros Hpre Hc. induction pre as [|a pre IH].
  - change (trimStart (String c s) = String c s). simpl. by rewrite Hc.
  - simpl in Hpre. apply andb_true_iff in Hpre as [Ha Hpre].
    change (trimStart (String a (pre +:+ String c s)) = String c s).
    simpl. rewrite Ha. by apply IH.
Qed.

Lemma trimEnd_spaces (post : string) :
  allSpaces post = true -> trimEnd post = "".
Proof.
  induction post as [|a post IH]; [done |].
  simpl. intros [Ha Hpost]%andb_true_iff. by rewrite IH, Ha.
Qed.

Lemma trimEnd_keep (s post : string) (c : ascii) :
  allSpaces post = true -> isSpace c = false ->
  trimEnd (s +:+ String c post) = s +:+ String c "".
Proof.
  intros Hpost Hc. induction s as [|a s IH].
  - change (trimEnd (String c post) = String c ""). simpl.
    by rewrite trimEnd_spaces, Hc.
  - change (trimEnd (String a (s +:+ String c post)) = String a (s +:+ String c "")).
    simpl. rewrite IH. by destruct s.
Qed.

Lemma stripTrailingQuote_end (s : string) :
  stripTrailingQuote (s +:+ String dquote "") = s.
Proof.
  induction s as [|a s IH]; [done |].
  change (stripTrailingQuote (String a (s +:+ String dquote "")) = String a s).
  simpl. rewrite IH. by destruct s.
Qed.

Lemma isSpace_dquote : isSpace dquote = false.
Proof. done. Qed.

(** The cleaning of a random theme: a response that is the theme between
    double quotes, with white space before and after, gives the theme. *)
Theorem generateRandomTheme_unquotes (level : CEFRLevel) (mood theme pre post : string) :
  allSpaces pre = true -> allSpaces post = true ->
  generateRandomTheme (answering (pre +:+ quoted theme +:+ post)) level mood
  = Returned theme.
Proof.
  intros Hpre Hpost. unfold generateRandomTheme, answering, try_catch, bind. simpl.
  f_equal. unfold trim, quoted.
  change (String dquote (theme +:+ String dquote "") +:+ post)
    with (String dquote ((theme +:+ String dquote "") +:+ post)).
  rewrite trimStart_spaces by done.
  rewrite string_app_assoc.
  change (String dquote (theme +:+ String dquote "" +:+ post))
    with (String dquote theme +:+ String dquote post).
  rewrite trimEnd_keep by done.
  change (stripQuotes (String dquote (theme +:+ String dquote "")) = theme).
  unfold stripQuotes. rewrite Ascii.eqb_refl. apply stripTrailingQuote_end.
Qed.

Lemma generateRandomTheme_unquotes_witness :
  generateRandomTheme
    (answering (" " +:+ quoted "Ein Tag am Meer" +:+ String (ascii_of_nat 10) ""))
    B1 "lustig"
  = Returned "Ein Tag am Meer".
Proof.
  apply (generateRandomTheme_unquotes B1 "lustig" "Ein Tag am Meer" " "
           (String (ascii_of_nat 10) "")); reflexivity.
Defined.





End TextProofs.

(** ** Proofs: the local storage, the cloze mode and the hover tooltip *)

Section OtherProofs.

(** A list entry of the local storage that is not JSON keeps the saved
    texts from being read as well: no setter is called. *)
Theorem loadStored_malformed_lists (getItem : string -> option string) (stored : string) :
  getItem "favoriteLists" = Some stored -> stored <> "" -> JSON.parse stored = None ->
  App.loadStored getItem = [].
Proof.
  intros Hget Hne Hparse. unfold App.loadStored. rewrite Hget.
  destruct stored as [|c stored]; [done |]. by rewrite Hparse.
Qed.

Lemma loadStored_malformed_lists_witness :
  App.loadStored brokenListsStorage = [].
Proof.
  apply (loadStored_malformed_lists brokenListsStorage "[{");
    [reflexivity | discriminate | by vm_compute].
Defined.

(** A text entry that is not JSON does not keep the lists from being read:
    the lists are set, the saved texts are not.  An entry that is absent or
    empty is passed over. *)
Theorem loadStored_malformed_texts (getItem : string -> option string)
    (lists texts : string) (parsed : JSON.value) :
  getItem "favoriteLists" = Some lists -> JSON.parse lists = Some parsed ->
  getItem "savedTexts" = Some texts -> JSON.parse texts = None ->
  App.loadStored getItem = [App.SetFavoriteLists parsed]
  /\ App.loadStored (fun _ => None) = []
  /\ App.loadStored (fun _ => Some "") = [].
Proof.
  intros Hl Hpl Ht Hpt. split; [|done]. unfold App.loadStored. rewrite Hl, Ht.
  destruct lists as [|c lists]; [by vm_compute in Hpl |]. rewrite Hpl.
  destruct texts as [|d texts]; [done |]. by rewrite Hpt.
Qed.

Lemma loadStored_malformed_texts_witness :
  App.loadStored brokenTextsStorage = [App.SetFavoriteLists (JSON.Arr [])].
Proof.
  apply (loadStored_malformed_texts brokenTextsStorage "[]" "[{" (JSON.Arr []));
    by vm_compute.
Defined.

(** Starting the cloze mode.  Without a text on screen nothing happens.
    The mode is entered only with the data of a call that returned at least
    one answer; a call that returned no answer and a call that threw leave
    the mode and its data as they were and show a message of their own.
    The text, the quiz and the favorites are not touched. *)
Theorem handleStartTextClozeMode_outcome
    (generateClozeTestFromText : string -> CEFRLevel -> outcome App.ClozeData)
    (st : App.State) :
  let st' := App.handleStartTextClozeMode generateClozeTestFromText st in
  App.content st' = App.content st
  /\ App.quizState st' = App.quizState st
  /\ App.favs st' = App.favs st
  /\ if bool_decide (App.generatedText (App.content st) = "") then st' = st
     else
       match generateClozeTestFromText (App.generatedText (App.content st))
               (App.level (App.core st)) with
       | Returned data =>
           if bool_decide (App.answers data = [])
           then App.cloze st' = App.cloze st
                /\ App.error (App.core st')
                   = Some "Bu metin için öğrenme modu oluşturulamadı. Lütfen farklı bir metin deneyin."
           else App.cloze st' = App.mkCloze true (Some data)
                /\ App.error (App.core st') = None
       | Thrown _ =>
           App.cloze st' = App.cloze st
           /\ App.error (App.core st') = Some "Öğrenme modu oluşturulurken bir hata oluştu."
       end.
Proof.
  intros st'. subst st'. unfold App.handleStartTextClozeMode.
  case_bool_decide as Hempty; [done |].
  destruct (generateClozeTestFromText _ _) as [data|e]; [|by destruct st].
  destruct (App.answers data) as [|a answers] eqn:Ha; simpl; by destruct st.
Qed.

(** The translation the hover tooltip shows for a sentence on screen is the
    Turkish sentence of the first pair with this German sentence, or three
    dots when that is empty; it is never the empty text. *)
Theorem handleWordHover_first_pair (before after : list TranslationPair)
    (s : TranslationPair) (st : App.State) :
  App.translatedSentences (App.content st) = before ++ s :: after ->
  Forall (fun p => TranslationPair.german p <> TranslationPair.german s) before ->
  (App.handleWordHover (TranslationPair.german s) st).2
  = (if bool_decide (TranslationPair.turkish s = "") then "..." else TranslationPair.turkish s)
  /\ (App.handleWordHover (TranslationPair.german s) st).2 <> "".
Proof.
  intros Hsent Hbefore. unfold App.handleWordHover. simpl. rewrite Hsent.
  assert (Hfind : List.find
            (fun p => bool_decide (TranslationPair.german p = TranslationPair.german s))
            (before ++ s :: after) = Some s).
  { clear Hsent. induction Hbefore as [|p before Hp _ IH]; simpl.
    - by rewrite bool_decide_eq_true_2.
    - by rewrite bool_decide_eq_false_2. }
  rewrite Hfind. split; [done |]. by case_bool_decide.
Qed.

Lemma handleWordHover_first_pair_witness :
  (App.handleWordHover "Sie trinkt Kaffee." quietStory).2 = "Kahve içiyor.".
Proof.
  apply (handleWordHover_first_pair
           [TranslationPair.mk "Anna wohnt in Berlin." "Anna Berlin'de oturuyor.";
            TranslationPair.mk " " ""]
           [] (TranslationPair.mk "Sie trinkt Kaffee." "Kahve içiyor.") quietStory).
  - reflexivity.
  - repeat constructor; discriminate.
Defined.

End OtherProofs.
